(** * Google Sheets MCP server: credential resolution, lifespan, tools, access guard

    A shallow embedding of [src/google_sheets_mcp_server/server.py].

    - Python values that cross the remote API boundary are [json] values;
      a Python [dict] with string keys is an association list in insertion
      order.  Numbers are integers: the server never looks inside one.
    - A Python [str] is a Rocq [string]; each character stands for one code
      point below 256, so [is_ascii] is "every code point is below 128".
    - Code that logs, probes the file system, talks to Google or raises is
      written in the monad [M]: a computation is the list of effects it
      performed, in order, together with either the exception that escaped
      it or its value.  The outside world (environment variables, files,
      Google's answers) is an explicit [World] record of oracles.
    - An f-string is kept as its list of pieces (literal text and
      interpolated values), so no rendering of [str(x)] has to be chosen. *)

From Stdlib Require Import ZArith NArith Lia List Ascii String Sorted.
From Stdlib.Strings Require Import Byte.
From stdpp Require Import base option list strings gmap sorting.

Local Open Scope string_scope.
Local Open Scope list_scope.

Set Warnings "-register-all".

(** ** Python values *)

Module Py.

Inductive json : Type :=
| JNull
| JBool (b : bool)
| JInt (z : Z)
| JStr (s : string)
| JList (l : list json)
| JDict (d : list (string * json)).

(** A [dict] whose keys are strings, in insertion order. *)
Definition dict : Type := list (string * json).

(** Exceptions.  Every constructor is a subclass of Python's [Exception]
    (what [except Exception] catches); [LibraryError] stands for whatever a
    collaborator raises (HttpError, RefreshError, OSError, ValueError...). *)
Inductive Exn : Type :=
| Exception_ (msg : string)
| NameError (name : string)
| TypeError (msg : string)
| KeyError (key : json)
| IndexError (msg : string)
| AttributeError (msg : string)
| LibraryError (cls msg : string).

(** Truthiness. *)
Definition truthy_str (s : string) : bool :=
  match s with
  | EmptyString => false
  | String _ _ => true
  end.

Definition truthy_opt_str (o : option string) : bool :=
  match o with
  | None => false
  | Some s => truthy_str s
  end.

Definition truthy (j : json) : bool :=
  match j with
  | JNull => false
  | JBool b => b
  | JInt z => negb (Z.eqb z 0)
  | JStr s => truthy_str s
  | JList l => match l with [] => false | _ :: _ => true end
  | JDict d => match d with [] => false | _ :: _ => true end
  end.

(** [d.get(k)] on an association list: the first binding of [k]. *)
Fixpoint dict_lookup (k : string) (d : dict) : option json :=
  match d with
  | [] => None
  | (k', v) :: rest => if String.eqb k k' then Some v else dict_lookup k rest
  end.

(** [d.get(k, dflt)] and [d.get(k)] (which defaults to [None]). *)
Definition dict_get (d : dict) (k : string) (dflt : json) : json :=
  match dict_lookup k d with
  | Some v => v
  | None => dflt
  end.

(** [d[k] = v]: replace the binding in place, or add it at the end. *)
Fixpoint dict_set (k : string) (v : json) (d : dict) : dict :=
  match d with
  | [] => [(k, v)]
  | (k', v') :: rest =>
      if String.eqb k k' then (k', v) :: rest else (k', v') :: dict_set k v rest
  end.

Definition chars (s : string) : list json :=
  map (fun c => JStr (String c EmptyString)) (list_ascii_of_string s).

(** [x[k]] with a string key. *)
Definition getitem (j : json) (k : string) : Exn + json :=
  match j with
  | JDict d =>
      match dict_lookup k d with
      | Some v => inr v
      | None => inl (KeyError (JStr k))
      end
  | JList _ => inl (TypeError "list indices must be integers or slices, not str")
  | JStr _ => inl (TypeError "string indices must be integers, not 'str'")
  | _ => inl (TypeError "object is not subscriptable")
  end.

(** [x[0]]. *)
Definition getitem0 (j : json) : Exn + json :=
  match j with
  | JList (x :: _) => inr x
  | JList [] => inl (IndexError "list index out of range")
  | JStr (String c _) => inr (JStr (String c EmptyString))
  | JStr EmptyString => inl (IndexError "string index out of range")
  | JDict _ => inl (KeyError (JInt 0))
  | _ => inl (TypeError "object is not subscriptable")
  end.

(** [x.get(k)] on an arbitrary value: only a dict has the method. *)
Definition get_method (j : json) (k : string) : Exn + json :=
  match j with
  | JDict d => inr (dict_get d k JNull)
  | _ => inl (AttributeError "object has no attribute 'get'")
  end.

(** [for x in j]: the elements a loop or comprehension visits. *)
Definition iter (j : json) : Exn + list json :=
  match j with
  | JList l => inr l
  | JDict d => inr (map (fun kv => JStr (fst kv)) d)
  | JStr s => inr (chars s)
  | _ => inl (TypeError "object is not iterable")
  end.

(** [len(j)]. *)
Definition len (j : json) : Exn + nat :=
  match j with
  | JList l => inr (length l)
  | JDict d => inr (length d)
  | JStr s => inr (String.length s)
  | _ => inl (TypeError "object has no len()")
  end.

Definition is_ascii (s : string) : bool :=
  forallb (fun c => N.ltb (N_of_ascii c) 128) (list_ascii_of_string s).

End Py.

Export Py.

(** ** Effects *)

(** The credential object of google-auth, as far as the server looks at
    it: the attributes [valid], [expired] and [refresh_token].  [subject]
    names the identity so that two credentials can be told apart. *)
Record Creds : Type := mkCreds {
  subject : string;
  valid : bool;
  expired : bool;
  refresh_token : option string
}.

(** The remote methods the tools call, with their keyword arguments. *)
Inductive RemoteCall : Type :=
| SpreadsheetsGet (spreadsheetId : string) (ranges : option (list string))
    (includeGridData : option bool)
| ValuesGet (spreadsheetId range : string)
| ValuesUpdate (spreadsheetId range valueInputOption : string) (body : dict)
| ValuesAppend (spreadsheetId range valueInputOption : string) (body : dict)
| BatchUpdate (spreadsheetId : string) (body : dict)
| FilesCreate (supportsAllDrives : bool) (body : dict) (fields : string)
| FilesList (q spaces : string) (includeItemsFromAllDrives supportsAllDrives : bool)
    (fields orderBy : string).

Inductive ServiceName : Type := Sheets | Drive.

Inductive Level : Type := INFO | WARNING | ERROR.

(** One piece of an f-string. *)
Inductive Piece : Type :=
| Lit (text : string)
| Str (s : string)
| Num (n : nat)
| Bool (b : bool)
| NoneVal
| Val (j : json)
| Err (e : Exn).

Inductive Event : Type :=
| Log (lvl : Level) (msg : list Piece)
| Probe (path : string)
| DecodeInline (blob : string)
| LoadServiceAccountFile (path : string)
| LoadToken (path : string)
| RefreshToken (c : Creds)
| RunFlow (client_secrets : string)
| WriteToken (path : string) (c : Creds)
| AuthDefault
| Build (name version : string) (c : Creds)
| Yield
| Execute (svc : ServiceName) (call : RemoteCall).

Definition M (A : Type) : Type := list Event * (Exn + A).

Definition trace {A} (m : M A) : list Event := fst m.
Definition outcome {A} (m : M A) : Exn + A := snd m.

Definition ret {A} (a : A) : M A := ([], inr a).
Definition raise {A} (e : Exn) : M A := ([], inl e).
Definition emit (ev : Event) : M unit := ([ev], inr tt).

Definition bind {A B} (m : M A) (f : A -> M B) : M B :=
  match m with
  | (t, inl e) => (t, inl e)
  | (t, inr a) => let (t', r) := f a in (t ++ t', r)
  end.

(** [try: m  except Exception as e: h e]. *)
Definition try_except {A} (m : M A) (h : Exn -> M A) : M A :=
  match m with
  | (t, inl e) => let (t', r) := h e in (t ++ t', r)
  | (t, inr a) => (t, inr a)
  end.

(** [try: m  finally: f]. *)
Definition try_finally {A} (m : M A) (f : M unit) : M A :=
  match m, f with
  | (t, r), (t', inl e') => (t ++ t', inl e')
  | (t, r), (t', inr _) => (t ++ t', r)
  end.

(** An effect whose result the world decides. *)
Definition perform {A} (ev : Event) (r : Exn + A) : M A := ([ev], r).

(** A pure step that may raise. *)
Definition lift {A} (r : Exn + A) : M A := ([], r).

Declare Scope eff_scope.
Delimit Scope eff_scope with eff.
Notation "x <- m ;; k" := (bind m (fun x => k))
  (at level 100, m at next level, right associativity) : eff_scope.
Notation "m ;;; k" := (bind m (fun _ => k))
  (at level 100, right associativity) : eff_scope.
Local Open Scope eff_scope.

Definition log (lvl : Level) (msg : list Piece) : M unit := emit (Log lvl msg).

Fixpoint mapM {A B} (f : A -> M B) (l : list A) : M (list B) :=
  match l with
  | [] => ret []
  | x :: rest => y <- f x ;; ys <- mapM f rest ;; ret (y :: ys)
  end.

(** Every effect of a computation satisfies [P]. *)
Definition emits (P : Event -> Prop) {A} (m : M A) : Prop := Forall P (trace m).

(** ** The access guard (module level [API_KEY], [validate_api_key]) *)

Module Guard.

Definition urlsafe_alphabet : list ascii :=
  list_ascii_of_string
    "ABCDEFGHIJKLMNOPQRSTUVWXYZabcdefghijklmnopqrstuvwxyz0123456789-_".

Definition sextet (n : N) : ascii :=
  nth (N.to_nat n) urlsafe_alphabet "A"%char.

(** [base64.urlsafe_b64encode]. *)
Fixpoint urlsafe_b64encode (bs : list N) : list ascii :=
  match bs with
  | [] => []
  | [a] =>
      [sextet (N.shiftr a 2); sextet (N.shiftl (N.land a 3) 4);
       "="%char; "="%char]
  | [a; b] =>
      [sextet (N.shiftr a 2);
       sextet (N.lor (N.shiftl (N.land a 3) 4) (N.shiftr b 4));
       sextet (N.shiftl (N.land b 15) 2); "="%char]
  | a :: b :: c :: rest =>
      sextet (N.shiftr a 2)
      :: sextet (N.lor (N.shiftl (N.land a 3) 4) (N.shiftr b 4))
      :: sextet (N.lor (N.shiftl (N.land b 15) 2) (N.shiftr c 6))
      :: sextet (N.land c 63)
      :: urlsafe_b64encode rest
  end.

(** [bytes.rstrip(ch)]. *)
Definition rstrip (ch : ascii) (l : list ascii) : list ascii :=
  fold_right
    (fun c acc =>
       match acc with
       | [] => if Ascii.eqb c ch then [] else [c]
       | _ :: _ => c :: acc
       end) [] l.

(** [secrets.token_bytes(n)]: [n] bytes drawn from the system's source. *)
Definition token_bytes (entropy : nat -> byte) (n : nat) : list byte :=
  map entropy (seq 0 n).

(** [secrets.token_urlsafe(n)]. *)
Definition token_urlsafe (entropy : nat -> byte) (n : nat) : string :=
  string_of_list_ascii
    (rstrip "="%char (urlsafe_b64encode (map Byte.to_N (token_bytes entropy n)))).

(** Module initialisation, lines 47-52: the configured key, or a generated
    one, with the two warnings of the generated case. *)
Definition init_API_KEY (environ : gmap string string) (entropy : nat -> byte)
  : list Event * string :=
  match environ !! "MCP_API_KEY" with
  | Some k =>
      if truthy_str k then ([], k)
      else
        let k' := token_urlsafe entropy 32 in
        ([Log WARNING [Lit "No MCP_API_KEY provided. Generated temporary key: "; Str k'];
          Log WARNING [Lit "Set MCP_API_KEY environment variable for production use"]],
         k')
  | None =>
      let k' := token_urlsafe entropy 32 in
      ([Log WARNING [Lit "No MCP_API_KEY provided. Generated temporary key: "; Str k'];
        Log WARNING [Lit "Set MCP_API_KEY environment variable for production use"]],
       k')
  end.

Definition API_KEY (environ : gmap string string) (entropy : nat -> byte) : string :=
  snd (init_API_KEY environ entropy).

(** [secrets.compare_digest] on two [str]: the standard library's
    constant-time comparison.  It accepts ASCII-only strings and raises
    [TypeError] otherwise; on ASCII strings it answers whether they are
    equal. *)
Definition compare_digest (a b : string) : Exn + bool :=
  if is_ascii a && is_ascii b then inr (String.eqb a b)
  else inl (TypeError "comparing strings with non-ASCII characters is not supported").

(** [validate_api_key], lines 64-68.  [None] is an absent key. *)
Definition validate_api_key (API_KEY : string) (provided_key : option string)
  : Exn + bool :=
  match provided_key with
  | None => inr false
  | Some p =>
      if negb (truthy_str p) || negb (truthy_str API_KEY) then inr false
      else compare_digest p API_KEY
  end.

End Guard.

(** ** Credential resolution and the lifespan context manager *)

Module Lifespan.

(** A service handle built by [googleapiclient.discovery.build]: asked to
    execute a request, it answers with the decoded response or raises. *)
Definition Service : Type := RemoteCall -> Exn + dict.

Record SpreadsheetContext : Type := mkContext {
  sheets_service : Service;
  drive_service : Service;
  folder_id : option string
}.

(** Everything the module reads from outside itself. *)
Record World : Type := mkWorld {
  environ : gmap string string;
  path_exists : string -> bool;
  (* json.loads(base64.b64decode(blob)) and from_service_account_info *)
  decode_service_account_info : string -> Exn + Creds;
  from_service_account_file : string -> Exn + Creds;
  (* open(path), json.load and Credentials.from_authorized_user_info *)
  load_authorized_user : string -> Exn + Creds;
  (* creds.refresh(request): the state of the credential afterwards *)
  refresh : Creds -> Exn + Creds;
  (* InstalledAppFlow.from_client_secrets_file(path) and run_local_server *)
  run_local_server : string -> Exn + Creds;
  (* open(path, 'w') and token.write(creds.to_json()) *)
  write_token : string -> Creds -> Exn + unit;
  (* google.auth.default: the credential and the project, which may be None *)
  auth_default : Exn + (Creds * option string);
  build : string -> string -> Creds -> Exn + Service
}.

(** Lines 40-44. *)
Definition CREDENTIALS_CONFIG (w : World) : option string :=
  environ w !! "CREDENTIALS_CONFIG".
Definition TOKEN_PATH (w : World) : string :=
  default "token.json" (environ w !! "TOKEN_PATH").
Definition CREDENTIALS_PATH (w : World) : string :=
  default "credentials.json" (environ w !! "CREDENTIALS_PATH").
Definition SERVICE_ACCOUNT_PATH (w : World) : string :=
  default "service-account-key.json" (environ w !! "SERVICE_ACCOUNT_PATH").
Definition DRIVE_FOLDER_ID (w : World) : string :=
  default "" (environ w !! "DRIVE_FOLDER_ID").

(** The names the module binds at its top level (imports, assignments,
    [def]s and the class), lines 9-60 and below.  No builtin is called
    [Request]. *)
Definition module_names : list string :=
  ["base64"; "os"; "json"; "logging"; "hashlib"; "secrets";
   "List"; "Dict"; "Any"; "Optional"; "Union";
   "dataclass"; "asynccontextmanager"; "AsyncIterator";
   "FastMCP"; "Context";
   "Credentials"; "service_account"; "GoogleRequest"; "InstalledAppFlow";
   "build"; "google";
   "logger"; "SCOPES"; "CREDENTIALS_CONFIG"; "TOKEN_PATH"; "CREDENTIALS_PATH";
   "SERVICE_ACCOUNT_PATH"; "DRIVE_FOLDER_ID"; "API_KEY";
   "SpreadsheetContext"; "validate_api_key"; "spreadsheet_lifespan"; "mcp";
   "health_check"; "get_sheet_data"; "update_cells"; "create_spreadsheet";
   "list_spreadsheets"; "add_rows"; "list_sheets"; "create_sheet"; "main"].

(** Evaluating a global name: [NameError] when the module does not bind it. *)
Definition lookup_name (n : string) : M unit :=
  if existsb (String.eqb n) module_names then ret tt else raise (NameError n).

(** [os.path.exists(p)]. *)
Definition probe (w : World) (p : string) : M bool :=
  perform (Probe p) (inr (path_exists w p)).

(** Priority 1, lines 80-87. *)
Definition priority1 (w : World) (creds : option Creds) : M (option Creds) :=
  match CREDENTIALS_CONFIG w with
  | Some blob =>
      if truthy_str blob then
        try_except
          (c <- perform (DecodeInline blob) (decode_service_account_info w blob) ;;
           log INFO [Lit "Using base64 encoded service account credentials"] ;;;
           ret (Some c))
          (fun e =>
             log ERROR [Lit "Error decoding CREDENTIALS_CONFIG: "; Err e] ;;;
             ret None)
      else ret creds
  | None => ret creds
  end.

(** Priority 2, lines 90-103. *)
Definition priority2 (w : World) (creds : option Creds) : M (option Creds) :=
  let sap := SERVICE_ACCOUNT_PATH w in
  log INFO [Lit "Checking service account path: "; Str sap] ;;;
  ex <- (if truthy_str sap then probe w sap else ret false) ;;
  log INFO [Lit "File exists: "; Bool ex] ;;;
  go <- match creds with
        | Some _ => ret false
        | None => if truthy_str sap then probe w sap else ret false
        end ;;
  if (go : bool) then
    try_except
      (c <- perform (LoadServiceAccountFile sap) (from_service_account_file w sap) ;;
       log INFO [Lit "Successfully loaded service account from file: "; Str sap] ;;;
       log INFO [Lit "Working with Google Drive folder ID: ";
                 Str (if truthy_str (DRIVE_FOLDER_ID w) then DRIVE_FOLDER_ID w
                      else "Not specified")] ;;;
       ret (Some c))
      (fun e =>
         log ERROR [Lit "Error using service account file: "; Err e] ;;;
         ret None)
  else ret creds.

(** Lines 108-114: the cached token. *)
Definition load_token (w : World) (creds : option Creds) : M (option Creds) :=
  ex <- probe w (TOKEN_PATH w) ;;
  if (ex : bool) then
    try_except
      (c <- perform (LoadToken (TOKEN_PATH w)) (load_authorized_user w (TOKEN_PATH w)) ;;
       log INFO [Lit "Loaded existing OAuth token"] ;;;
       ret (Some c))
      (fun e =>
         log ERROR [Lit "Error loading OAuth token: "; Err e] ;;;
         ret creds)
  else ret creds.

(** Line 120: [creds.refresh(Request())].  The argument is evaluated
    before the call is made, so the name [Request] is looked up first. *)
Definition refresh_call (w : World) (c : Creds) : M Creds :=
  lookup_name "Request" ;;;
  perform (RefreshToken c) (refresh w c).

(** Lines 118-124. *)
Definition refresh_token_step (w : World) (creds : option Creds) : M (option Creds) :=
  match creds with
  | Some c =>
      if expired c && truthy_opt_str (refresh_token c) then
        try_except
          (c' <- refresh_call w c ;;
           log INFO [Lit "Refreshed OAuth token"] ;;;
           ret (Some c'))
          (fun e =>
             log ERROR [Lit "Error refreshing OAuth token: "; Err e] ;;;
             ret None)
      else ret creds
  | None => ret creds
  end.

(** Lines 126-138: the interactive flow and the write of its token. *)
Definition interactive_flow (w : World) (creds : option Creds) : M (option Creds) :=
  match creds with
  | Some _ => ret creds
  | None =>
      try_except
        (c <- perform (RunFlow (CREDENTIALS_PATH w)) (run_local_server w (CREDENTIALS_PATH w)) ;;
         log INFO [Lit "Completed interactive OAuth flow"] ;;;
         perform (WriteToken (TOKEN_PATH w) c) (write_token w (TOKEN_PATH w) c) ;;;
         log INFO [Lit "Saved OAuth credentials to "; Str (TOKEN_PATH w)] ;;;
         ret (Some c))
        (fun e =>
           log ERROR [Lit "Error with OAuth flow: "; Err e] ;;;
           ret None)
  end.

(** [not creds or not creds.valid], line 117. *)
Definition missing_or_invalid (creds : option Creds) : bool :=
  match creds with
  | None => true
  | Some c => negb (valid c)
  end.

(** Priority 3, lines 106-138. *)
Definition priority3 (w : World) (creds : option Creds) : M (option Creds) :=
  match creds with
  | Some _ => ret creds
  | None =>
      log INFO [Lit "Attempting OAuth authentication flow"] ;;;
      creds <- load_token w creds ;;
      if missing_or_invalid creds then
        creds <- refresh_token_step w creds ;;
        interactive_flow w creds
      else ret creds
  end.

(** Priority 4, lines 141-148. *)
Definition priority4 (w : World) (creds : option Creds) : M Creds :=
  match creds with
  | Some c => ret c
  | None =>
      try_except
        (log INFO [Lit "Attempting to use Application Default Credentials (ADC)"] ;;;
         r <- perform AuthDefault (auth_default w) ;;
         log INFO [Lit "Successfully authenticated using ADC for project: ";
                   match snd r with Some p => Str p | None => NoneVal end] ;;;
         ret (fst r))
        (fun e =>
           log ERROR [Lit "Error using Application Default Credentials: "; Err e] ;;;
           raise (Exception_ "All authentication methods failed. Please configure credentials."))
  end.

(** Lines 77-148: the credential the services are built from. *)
Definition resolve_credentials (w : World) : M Creds :=
  creds <- priority1 w None ;;
  creds <- priority2 w creds ;;
  creds <- priority3 w creds ;;
  priority4 w creds.

(** Lines 151-157. *)
Definition build_services (w : World) (c : Creds) : M (Service * Service) :=
  try_except
    (s <- perform (Build "sheets" "v4" c) (build w "sheets" "v4" c) ;;
     d <- perform (Build "drive" "v3" c) (build w "drive" "v3" c) ;;
     log INFO [Lit "Successfully built Google API services"] ;;;
     ret (s, d))
    (fun e =>
       log ERROR [Lit "Error building Google API services: "; Err e] ;;;
       raise e).

(** Lines 74-157: what runs before the [try] that holds the [yield]. *)
Definition initialise (w : World) : M (Service * Service) :=
  log INFO [Lit "Initializing Google Spreadsheet services..."] ;;;
  c <- resolve_credentials w ;;
  build_services w c.

Definition make_context (w : World) (sd : Service * Service) : SpreadsheetContext :=
  {| sheets_service := fst sd;
     drive_service := snd sd;
     folder_id := if truthy_str (DRIVE_FOLDER_ID w) then Some (DRIVE_FOLDER_ID w) else None |}.

(** The teardown step, line 169. *)
Definition teardown : Event :=
  Log INFO [Lit "Cleaning up Google Spreadsheet services"].

(** [async with spreadsheet_lifespan(server) as ctx: body ctx].  The body
    runs while the generator is suspended at its [yield]; an exception of
    the body is thrown into the generator there. *)
Definition spreadsheet_lifespan (w : World) (body : SpreadsheetContext -> M unit) : M unit :=
  sd <- initialise w ;;
  try_finally
    (emit Yield ;;;
     body (make_context w sd) ;;;
     log INFO [Lit "Google Spreadsheet services initialized successfully"])
    (emit teardown).

(** The five credential sources, in the order the spec lists them. *)
Inductive Source : Type :=
| InlineBlob | ServiceAccountFile | CachedToken | InteractiveFlow | AmbientDefault.

Definition rank (s : Source) : nat :=
  match s with
  | InlineBlob => 0
  | ServiceAccountFile => 1
  | CachedToken => 2
  | InteractiveFlow => 3
  | AmbientDefault => 4
  end.

(** The source an effect belongs to.  Refreshing belongs to the cached
    token, writing the token file to the interactive flow.  Probing a path
    with [os.path.exists] obtains no credential and belongs to none. *)
Definition source_of (ev : Event) : option Source :=
  match ev with
  | DecodeInline _ => Some InlineBlob
  | LoadServiceAccountFile _ => Some ServiceAccountFile
  | LoadToken _ | RefreshToken _ => Some CachedToken
  | RunFlow _ | WriteToken _ _ => Some InteractiveFlow
  | AuthDefault => Some AmbientDefault
  | _ => None
  end.

Definition invoked_sources (t : list Event) : list Source := omap source_of t.

(** [yields w k c]: in world [w], source [k] on its own produces the
    credential [c].  The cached token produces the credential it loads, or
    the one its refresh leaves; the interactive flow produces a credential
    once the flow has run and its token has been written (lines 127-135 are
    one [try] block). *)
Inductive yields (w : World) : Source -> Creds -> Prop :=
| yields_inline blob c :
    CREDENTIALS_CONFIG w = Some blob ->
    blob <> "" ->
    decode_service_account_info w blob = inr c ->
    yields w InlineBlob c
| yields_file c :
    SERVICE_ACCOUNT_PATH w <> "" ->
    path_exists w (SERVICE_ACCOUNT_PATH w) = true ->
    from_service_account_file w (SERVICE_ACCOUNT_PATH w) = inr c ->
    yields w ServiceAccountFile c
| yields_token c :
    path_exists w (TOKEN_PATH w) = true ->
    load_authorized_user w (TOKEN_PATH w) = inr c ->
    yields w CachedToken c
| yields_refreshed c0 c :
    path_exists w (TOKEN_PATH w) = true ->
    load_authorized_user w (TOKEN_PATH w) = inr c0 ->
    valid c0 = false ->
    expired c0 = true ->
    truthy_opt_str (refresh_token c0) = true ->
    outcome (refresh_call w c0) = inr c ->
    yields w CachedToken c
| yields_flow c :
    run_local_server w (CREDENTIALS_PATH w) = inr c ->
    write_token w (TOKEN_PATH w) c = inr tt ->
    yields w InteractiveFlow c
| yields_default c project :
    auth_default w = inr (c, project) ->
    yields w AmbientDefault c.

(** The effects credential resolution may have: logging (but not the
    teardown line), probing paths, and the credential sources with the
    exception of a token refresh. *)
Definition resolution_event (ev : Event) : Prop :=
  match ev with
  | Build _ _ _ | Yield | Execute _ _ | RefreshToken _ => False
  | Log lvl msg => Log lvl msg <> teardown
  | _ => True
  end.

(** The effects of everything before the [yield]: those of resolution and
    the building of the two handles. *)
Definition startup_event (ev : Event) : Prop :=
  match ev with
  | Build _ _ _ => True
  | _ => resolution_event ev
  end.

(** The token refreshes a run performed. *)
Definition refreshes (t : list Event) : list Creds :=
  omap (fun ev => match ev with RefreshToken c => Some c | _ => None end) t.

(** The only write of a token file resolution may do: the credential
    the interactive flow returned, to [TOKEN_PATH]. *)
Definition token_write_ok (w : World) (ev : Event) : Prop :=
  match ev with
  | WriteToken p c =>
      p = TOKEN_PATH w /\ run_local_server w (CREDENTIALS_PATH w) = inr c
  | _ => True
  end.

(** Sources are visited in non-decreasing rank. *)
Definition in_order (l : list Source) : Prop :=
  StronglySorted (fun a b => rank a <= rank b) l.

(** The sources a computation touched, in order. *)
Definition sources {A} (m : M A) : list Source := invoked_sources (trace m).

(** [ranked lo hi l]: [l] is in order and every rank lies in [lo..hi]. *)
Definition ranked (lo hi : nat) (l : list Source) : Prop :=
  in_order l /\ Forall (fun s => lo <= rank s <= hi) l.

End Lifespan.

(** ** The tools *)

Module Tools.

Import Lifespan.

(** What a handle of the context answers to a call. *)
Definition answer (ctx : SpreadsheetContext) (svc : ServiceName) (call : RemoteCall)
  : Exn + dict :=
  match svc with
  | Sheets => sheets_service ctx call
  | Drive => drive_service ctx call
  end.

(** [request.execute()] on the handle of [svc]. *)
Definition execute (ctx : SpreadsheetContext) (svc : ServiceName) (call : RemoteCall)
  : M dict :=
  perform (Execute svc call) (answer ctx svc call).

(** Lines 225-229 of [get_sheet_data]. *)
Definition full_range (sheet : string) (range : option string) : string :=
  match range with
  | Some r => if truthy_str r then sheet +:+ "!" +:+ r else sheet
  | None => sheet
  end.

(** [range or 'all']. *)
Definition range_or_all (range : option string) : string :=
  match range with
  | Some r => if truthy_str r then r else "all"
  | None => "all"
  end.

(** Lines 203-259. *)
Definition get_sheet_data (ctx : SpreadsheetContext) (spreadsheet_id sheet : string)
  (range : option string) (include_grid_data : bool) : M json :=
  let full_range := full_range sheet range in
  try_except
    (result <-
       (if include_grid_data then
          execute ctx Sheets
            (SpreadsheetsGet spreadsheet_id (Some [full_range]) (Some true))
        else
          values_result <- execute ctx Sheets (ValuesGet spreadsheet_id full_range) ;;
          ret [("spreadsheetId", JStr spreadsheet_id);
               ("valueRanges",
                JList [JDict [("range", JStr full_range);
                              ("values", dict_get values_result "values" (JList []))]])]) ;;
     log INFO [Lit "Successfully retrieved data from "; Str spreadsheet_id;
               Lit ", sheet: "; Str sheet; Lit ", range: "; Str (range_or_all range)] ;;;
     ret (JDict result))
    (fun e =>
       log ERROR [Lit "Error getting sheet data: "; Err e] ;;;
       raise e).

(** Lines 263-303. *)
Definition update_cells (ctx : SpreadsheetContext) (spreadsheet_id sheet range : string)
  (data : list (list json)) : M json :=
  let full_range := sheet +:+ "!" +:+ range in
  let value_range_body := [("values", JList (map JList data))] in
  try_except
    (result <- execute ctx Sheets
                 (ValuesUpdate spreadsheet_id full_range "USER_ENTERED" value_range_body) ;;
     log INFO [Lit "Successfully updated cells in "; Str spreadsheet_id;
               Lit ", sheet: "; Str sheet; Lit ", range: "; Str range] ;;;
     ret (JDict result))
    (fun e =>
       log ERROR [Lit "Error updating cells: "; Err e] ;;;
       raise e).

(** Lines 320-326: the body of the create request. *)
Definition file_body (folder_id : option string) (title : string) : dict :=
  let file_body :=
    [("name", JStr title);
     ("mimeType", JStr "application/vnd.google-apps.spreadsheet")] in
  match folder_id with
  | Some f =>
      if truthy_str f then dict_set "parents" (JList [JStr f]) file_body
      else file_body
  | None => file_body
  end.

(** Lines 307-347. *)
Definition create_spreadsheet (ctx : SpreadsheetContext) (title : string) : M json :=
  let file_body := file_body (folder_id ctx) title in
  try_except
    (spreadsheet <- execute ctx Drive (FilesCreate true file_body "id, name, parents") ;;
     let spreadsheet_id := dict_get spreadsheet "id" JNull in
     let parents := dict_get spreadsheet "parents" JNull in
     log INFO [Lit "Created spreadsheet '"; Str title; Lit "' with ID: ";
               Val spreadsheet_id] ;;;
     folder <- (if truthy parents then lift (getitem0 parents)
                else ret (JStr "root")) ;;
     ret (JDict [("spreadsheetId", spreadsheet_id);
                 ("title", dict_get spreadsheet "name" (JStr title));
                 ("folder", folder)]))
    (fun e =>
       log ERROR [Lit "Error creating spreadsheet: "; Err e] ;;;
       raise e).

(** Lines 351-388. *)
Definition list_spreadsheets (ctx : SpreadsheetContext) : M json :=
  let query := "mimeType='application/vnd.google-apps.spreadsheet'" in
  query <-
    match folder_id ctx with
    | Some f =>
        if truthy_str f then
          log INFO [Lit "Searching for spreadsheets in folder: "; Str f] ;;;
          ret (query +:+ " and '" +:+ f +:+ "' in parents")
        else
          log INFO [Lit "Searching for spreadsheets in 'My Drive'"] ;;; ret query
    | None =>
        log INFO [Lit "Searching for spreadsheets in 'My Drive'"] ;;; ret query
    end ;;
  try_except
    (results <- execute ctx Drive
                  (FilesList query "drive" true true "files(id, name)" "modifiedTime desc") ;;
     let spreadsheets := dict_get results "files" (JList []) in
     n <- lift (len spreadsheets) ;;
     log INFO [Lit "Found "; Num n; Lit " spreadsheets"] ;;;
     items <- lift (iter spreadsheets) ;;
     out <- mapM (fun sheet =>
                    i <- lift (getitem sheet "id") ;;
                    t <- lift (getitem sheet "name") ;;
                    ret (JDict [("id", i); ("title", t)])) items ;;
     ret (JList out))
    (fun e =>
       log ERROR [Lit "Error listing spreadsheets: "; Err e] ;;;
       raise e).

(** Lines 392-427. *)
Definition add_rows (ctx : SpreadsheetContext) (spreadsheet_id sheet : string)
  (data : list (list json)) : M json :=
  let value_range_body := [("values", JList (map JList data))] in
  try_except
    (result <- execute ctx Sheets
                 (ValuesAppend spreadsheet_id sheet "USER_ENTERED" value_range_body) ;;
     log INFO [Lit "Successfully added "; Num (length data); Lit " rows to ";
               Str spreadsheet_id; Lit ", sheet: "; Str sheet] ;;;
     ret (JDict result))
    (fun e =>
       log ERROR [Lit "Error adding rows: "; Err e] ;;;
       raise e).

(** Lines 431-454. *)
Definition list_sheets (ctx : SpreadsheetContext) (spreadsheet_id : string) : M json :=
  try_except
    (spreadsheet <- execute ctx Sheets (SpreadsheetsGet spreadsheet_id None None) ;;
     sheets <- lift (getitem (JDict spreadsheet) "sheets") ;;
     items <- lift (iter sheets) ;;
     sheet_names <- mapM (fun sheet =>
                            p <- lift (getitem sheet "properties") ;;
                            lift (getitem p "title")) items ;;
     log INFO [Lit "Found "; Num (length sheet_names); Lit " sheets in spreadsheet ";
               Str spreadsheet_id] ;;;
     ret (JList sheet_names))
    (fun e =>
       log ERROR [Lit "Error listing sheets: "; Err e] ;;;
       raise e).

(** Lines 458-505. *)
Definition create_sheet (ctx : SpreadsheetContext) (spreadsheet_id title : string)
  : M json :=
  let request_body :=
    [("requests",
      JList [JDict [("addSheet",
                     JDict [("properties", JDict [("title", JStr title)])])]])] in
  try_except
    (result <- execute ctx Sheets (BatchUpdate spreadsheet_id request_body) ;;
     replies <- lift (getitem (JDict result) "replies") ;;
     reply <- lift (getitem0 replies) ;;
     added <- lift (getitem reply "addSheet") ;;
     new_sheet_props <- lift (getitem added "properties") ;;
     log INFO [Lit "Created new sheet '"; Str title; Lit "' in spreadsheet ";
               Str spreadsheet_id] ;;;
     sheet_id <- lift (getitem new_sheet_props "sheetId") ;;
     new_title <- lift (getitem new_sheet_props "title") ;;
     index <- lift (get_method new_sheet_props "index") ;;
     ret (JDict [("sheetId", sheet_id); ("title", new_title); ("index", index);
                 ("spreadsheetId", JStr spreadsheet_id)]))
    (fun e =>
       log ERROR [Lit "Error creating sheet: "; Err e] ;;;
       raise e).

(** Lines 510-521: the function the module binds to [health_check]. *)
Definition health_check : M json :=
  ret (JDict [("status", JStr "healthy");
              ("service", JStr "Google Sheets MCP Server");
              ("version", JStr "1.0.0")]).

(** A tool invocation: the tool's name with its typed arguments. *)
Inductive ToolCall : Type :=
| GetSheetData (spreadsheet_id sheet : string) (range : option string)
    (include_grid_data : bool)
| UpdateCells (spreadsheet_id sheet range : string) (data : list (list json))
| CreateSpreadsheet (title : string)
| ListSpreadsheets
| AddRows (spreadsheet_id sheet : string) (data : list (list json))
| ListSheets (spreadsheet_id : string)
| CreateSheet (spreadsheet_id title : string)
| HealthCheck.

Definition run_tool (ctx : SpreadsheetContext) (t : ToolCall) : M json :=
  match t with
  | GetSheetData sid sheet range grid => get_sheet_data ctx sid sheet range grid
  | UpdateCells sid sheet range data => update_cells ctx sid sheet range data
  | CreateSpreadsheet title => create_spreadsheet ctx title
  | ListSpreadsheets => list_spreadsheets ctx
  | AddRows sid sheet data => add_rows ctx sid sheet data
  | ListSheets sid => list_sheets ctx sid
  | CreateSheet sid title => create_sheet ctx sid title
  | HealthCheck => health_check
  end.

(** The operation named in the error log of each tool. *)
Definition operation (t : ToolCall) : string :=
  match t with
  | GetSheetData _ _ _ _ => "Error getting sheet data: "
  | UpdateCells _ _ _ _ => "Error updating cells: "
  | CreateSpreadsheet _ => "Error creating spreadsheet: "
  | ListSpreadsheets => "Error listing spreadsheets: "
  | AddRows _ _ _ => "Error adding rows: "
  | ListSheets _ => "Error listing sheets: "
  | CreateSheet _ _ => "Error creating sheet: "
  | HealthCheck => ""
  end.

(** The remote calls a run performed, in order. *)
Definition calls (t : list Event) : list (ServiceName * RemoteCall) :=
  omap (fun ev => match ev with Execute s c => Some (s, c) | _ => None end) t.

(** The range strings a run sent to the remote API. *)
Definition ranges_of (call : RemoteCall) : list string :=
  match call with
  | SpreadsheetsGet _ (Some rs) _ => rs
  | SpreadsheetsGet _ None _ => []
  | ValuesGet _ r | ValuesUpdate _ r _ _ | ValuesAppend _ r _ _ => [r]
  | _ => []
  end.

Definition sent_ranges (t : list Event) : list string :=
  flat_map (fun sc => ranges_of (snd sc)) (calls t).

(** The request bodies a run sent to [files().create]. *)
Definition created_bodies (t : list Event) : list dict :=
  omap (fun sc => match snd sc with FilesCreate _ b _ => Some b | _ => None end)
       (calls t).

(** A computation that performs no remote call. *)
Definition quiet {A} (m : M A) : Prop := calls (trace m) = [].

(** The shape every tool body has: one remote call, a quiet reshaping of
    its answer, and a handler that logs and re-raises. *)
Definition guarded (ctx : SpreadsheetContext) (svc : ServiceName) (call : RemoteCall)
  (post : dict -> M json) (msg : string) : M json :=
  try_except
    (r <- execute ctx svc call ;; post r)
    (fun e => log ERROR [Lit msg; Err e] ;;; raise e).

(** The request each tool sends. *)
Definition request_of (ctx : SpreadsheetContext) (t : ToolCall)
  : option (ServiceName * RemoteCall) :=
  match t with
  | GetSheetData sid sheet range grid =>
      Some (Sheets,
            if grid then SpreadsheetsGet sid (Some [full_range sheet range]) (Some true)
            else ValuesGet sid (full_range sheet range))
  | UpdateCells sid sheet range data =>
      Some (Sheets, ValuesUpdate sid (sheet +:+ "!" +:+ range) "USER_ENTERED"
                      [("values", JList (map JList data))])
  | CreateSpreadsheet title =>
      Some (Drive, FilesCreate true (file_body (folder_id ctx) title) "id, name, parents")
  | ListSpreadsheets =>
      Some (Drive,
            FilesList
              (match folder_id ctx with
               | Some f =>
                   if truthy_str f then
                     "mimeType='application/vnd.google-apps.spreadsheet'"
                       +:+ " and '" +:+ f +:+ "' in parents"
                   else "mimeType='application/vnd.google-apps.spreadsheet'"
               | None => "mimeType='application/vnd.google-apps.spreadsheet'"
               end)
              "drive" true true "files(id, name)" "modifiedTime desc")
  | AddRows sid sheet data =>
      Some (Sheets, ValuesAppend sid sheet "USER_ENTERED"
                      [("values", JList (map JList data))])
  | ListSheets sid => Some (Sheets, SpreadsheetsGet sid None None)
  | CreateSheet sid title =>
      Some (Sheets,
            BatchUpdate sid
              [("requests",
                JList [JDict [("addSheet",
                               JDict [("properties", JDict [("title", JStr title)])])]])])
  | HealthCheck => None
  end.

(** A record that is not an error record. *)
Definition no_error_log (ev : Event) : Prop :=
  match ev with
  | Log ERROR _ => False
  | _ => True
  end.

End Tools.

(** ** Concrete runs

    Handles, contexts and worlds at which the properties below are
    evaluated. *)

Module Scenarios.

Import Lifespan Tools.

(** An environment that configures the shared secret, and a source of
    entropy that only ever gives zero bytes. *)
Definition small_env : gmap string string := {[ "MCP_API_KEY" := "s3cret" ]}.
Definition zero_entropy : nat -> byte := fun _ => x00.

(** A configured secret with a non-ASCII character (U+00E9). *)
Definition e_acute : string := String "233"%char EmptyString.
Definition latin_env : gmap string string := {[ "MCP_API_KEY" := e_acute ]}.

Definition not_found : Exn := LibraryError "HttpError" "404 Requested entity was not found".

(** A handle whose every request fails. *)
Definition failing_service : Service := fun _ => inl not_found.

(** A sheets handle holding one sheet with two rows. *)
Definition demo_sheets : Service := fun call =>
  match call with
  | ValuesGet _ _ =>
      inr [("range", JStr "Sheet1!A1:B2");
           ("majorDimension", JStr "ROWS");
           ("values", JList [JList [JStr "a"; JStr "b"]; JList [JStr "c"; JStr "d"]])]
  | ValuesAppend _ _ _ _ =>
      inr [("spreadsheetId", JStr "doc");
           ("updates", JDict [("updatedRows", JInt 2)])]
  | _ => inr []
  end.

(** A drive handle that files every new document under the caller's root
    folder and reports that folder's identifier. *)
Definition demo_drive : Service := fun call =>
  match call with
  | FilesCreate _ body _ =>
      inr [("id", JStr "1AbC");
           ("name", dict_get body "name" JNull);
           ("parents", dict_get body "parents" (JList [JStr "0AExampleRootId"]))]
  | _ => inr []
  end.

(** A drive handle whose answer to a create request lists no parents. *)
Definition bare_drive : Service := fun call =>
  match call with
  | FilesCreate _ body _ => inr [("id", JStr "1AbC"); ("name", dict_get body "name" JNull)]
  | _ => inr []
  end.

Definition demo_ctx : SpreadsheetContext :=
  {| sheets_service := demo_sheets; drive_service := demo_drive; folder_id := None |}.

Definition bare_ctx : SpreadsheetContext :=
  {| sheets_service := demo_sheets; drive_service := bare_drive; folder_id := None |}.

Definition folder_ctx : SpreadsheetContext :=
  {| sheets_service := demo_sheets; drive_service := demo_drive;
     folder_id := Some "folder42" |}.

Definition failing_ctx : SpreadsheetContext :=
  {| sheets_service := failing_service; drive_service := failing_service;
     folder_id := None |}.

Definition two_rows : list (list json) :=
  [[JStr "a"; JStr "b"]; [JStr "c"; JStr "d"]].

Definition unavailable : Exn + Creds :=
  inl (LibraryError "FileNotFoundError" "No such file or directory").

Definition demo_service : Service := fun _ => inr [].

(** A world in which only the listed files exist; the credential each
    source would give and whether the token file can be written and the
    services built are parameters. *)
Definition world (env : gmap string string) (files : list string)
  (inline key_file token refreshed flow adc : Exn + Creds)
  (writable buildable : bool) : World :=
  {| environ := env;
     path_exists := fun p => existsb (String.eqb p) files;
     decode_service_account_info := fun _ => inline;
     from_service_account_file := fun _ => key_file;
     load_authorized_user := fun _ => token;
     refresh := fun _ => refreshed;
     run_local_server := fun _ => flow;
     write_token := fun _ _ =>
       if writable then inr tt
       else inl (LibraryError "PermissionError" "Read-only file system");
     auth_default :=
       match adc with
       | inr c => inr (c, None)
       | inl e => inl e
       end;
     build := fun _ _ _ =>
       if buildable then inr demo_service
       else inl (LibraryError "UnknownApiNameOrVersion" "name: sheets  version: v4") |}.

Definition robot : Creds :=
  {| subject := "robot@project.iam.gserviceaccount.com";
     valid := false; expired := false; refresh_token := None |}.

Definition fresh_user : Creds :=
  {| subject := "user@example.com";
     valid := true; expired := false; refresh_token := Some "1//refresh" |}.

(** An expired user token that still carries its refresh token. *)
Definition expired_user : Creds :=
  {| subject := "user@example.com";
     valid := false; expired := true; refresh_token := Some "1//refresh" |}.

(** An expired user token saved without a refresh token. *)
Definition stale_user : Creds :=
  {| subject := "user@example.com";
     valid := false; expired := true; refresh_token := None |}.

Definition other_user : Creds :=
  {| subject := "other@example.com";
     valid := true; expired := false; refresh_token := Some "1//other" |}.

Definition no_adc : Exn + Creds :=
  inl (LibraryError "DefaultCredentialsError" "Could not automatically determine credentials").

(** Nothing is configured and nothing is on disk. *)
Definition barren_world : World :=
  world ∅ [] unavailable unavailable unavailable unavailable unavailable no_adc true true.

(** A valid cached token; the flow and the ambient identity would work too. *)
Definition cached_world : World :=
  world ∅ ["token.json"; "credentials.json"]
    unavailable unavailable (inr fresh_user) unavailable (inr other_user) (inr robot)
    true true.

(** The cached token is expired, Google would refresh it, and nothing else
    is available. *)
Definition refreshable_world : World :=
  world ∅ ["token.json"]
    unavailable unavailable (inr expired_user) (inr fresh_user) unavailable no_adc
    true true.

(** The cached token is expired and has no refresh token; nothing else is
    available. *)
Definition stale_world : World :=
  world ∅ ["token.json"]
    unavailable unavailable (inr stale_user) unavailable unavailable no_adc
    true true.

(** A service-account key file is present, but the services cannot be built. *)
Definition unbuildable_world : World :=
  world ∅ ["service-account-key.json"]
    unavailable (inr robot) unavailable unavailable unavailable no_adc
    true false.

(** A service-account key file is present and everything works. *)
Definition key_file_world : World :=
  world {[ "DRIVE_FOLDER_ID" := "folder42" ]} ["service-account-key.json"]
    unavailable (inr robot) unavailable unavailable unavailable no_adc
    true true.

(** The interactive flow works, but the token file cannot be written;
    the ambient identity is available. *)
Definition readonly_world : World :=
  world ∅ ["credentials.json"]
    unavailable unavailable unavailable unavailable (inr other_user) (inr robot)
    false true.

(** A drive handle that lists two documents. *)
Definition listing_drive : Service := fun call =>
  match call with
  | FilesList _ _ _ _ _ _ =>
      inr [("files",
            JList [JDict [("id", JStr "1AbC"); ("name", JStr "Budget")];
                   JDict [("name", JStr "Plan"); ("id", JStr "2DeF");
                          ("kind", JStr "drive#file")]])]
  | _ => inr []
  end.

(** A sheets handle for a document with two tabs, to which a third can be
    added. *)
Definition tabbed_sheets : Service := fun call =>
  match call with
  | SpreadsheetsGet _ _ _ =>
      inr [("spreadsheetId", JStr "doc");
           ("sheets",
            JList [JDict [("properties",
                           JDict [("sheetId", JInt 0); ("title", JStr "Sheet1")])];
                   JDict [("properties",
                           JDict [("sheetId", JInt 7); ("title", JStr "Totals")])]])]
  | BatchUpdate _ _ =>
      inr [("spreadsheetId", JStr "doc");
           ("replies",
            JList [JDict [("addSheet",
                           JDict [("properties",
                                   JDict [("sheetId", JInt 12); ("title", JStr "Q3");
                                          ("index", JInt 2)])])]])]
  | _ => inr []
  end.

Definition listing_ctx : SpreadsheetContext :=
  {| sheets_service := tabbed_sheets; drive_service := listing_drive;
     folder_id := Some "folder42" |}.

(** Only the interactive flow is available, and its token can be saved. *)
Definition flow_world : World :=
  world ∅ ["credentials.json"]
    unavailable unavailable unavailable unavailable (inr other_user) no_adc
    true true.

(** A body that serves without incident, and one that crashes. *)
Definition serve_ok : SpreadsheetContext -> M unit := fun _ => ret tt.
Definition serve_crash : SpreadsheetContext -> M unit :=
  fun _ => raise (LibraryError "RuntimeError" "transport closed").

End Scenarios.

(** * Properties *)

Local Open Scope eff_scope.

(** ** The monad *)

Lemma bind_ret_l {A B} (a : A) (f : A -> M B) : bind (ret a) f = f a.
Proof. unfold bind, ret. destruct (f a) as [t r]. reflexivity. Qed.

Lemma trace_bind_raise {A B} (m : M A) (f : A -> M B) e :
  outcome m = inl e -> bind m f = (trace m, inl e).
Proof. destruct m as [t [e'|a]]; simpl; intros H; congruence. Qed.

Lemma bind_ok {A B} (m : M A) (f : A -> M B) a :
  outcome m = inr a ->
  bind m f = (trace m ++ trace (f a), outcome (f a)).
Proof.
  destruct m as [t [e'|a']]; simpl; intros H; [congruence|].
  injection H as ->. destruct (f a) as [t' r]. reflexivity.
Qed.

Lemma trace_bind {A B} (m : M A) (f : A -> M B) :
  trace (bind m f) =
  trace m ++ match outcome m with inr a => trace (f a) | inl _ => [] end.
Proof.
  destruct m as [t [e|a]]; simpl.
  - by rewrite app_nil_r.
  - by destruct (f a).
Qed.

Lemma outcome_bind {A B} (m : M A) (f : A -> M B) :
  outcome (bind m f) =
  match outcome m with inr a => outcome (f a) | inl e => inl e end.
Proof. destruct m as [t [e|a]]; simpl; [done|]. by destruct (f a). Qed.

Lemma trace_try_except {A} (m : M A) (h : Exn -> M A) :
  trace (try_except m h) =
  trace m ++ match outcome m with inl e => trace (h e) | inr _ => [] end.
Proof.
  destruct m as [t [e|a]]; simpl.
  - by destruct (h e).
  - by rewrite app_nil_r.
Qed.

Lemma outcome_try_except {A} (m : M A) (h : Exn -> M A) :
  outcome (try_except m h) =
  match outcome m with inl e => outcome (h e) | inr a => inr a end.
Proof. destruct m as [t [e|a]]; simpl; [|done]. by destruct (h e). Qed.

Lemma bind_assoc {A B C} (m : M A) (f : A -> M B) (g : B -> M C) :
  bind (bind m f) g = bind m (fun a => bind (f a) g).
Proof.
  destruct m as [t [e|a]]; simpl; [done|].
  destruct (f a) as [t' [e'|b]]; simpl; [done|].
  destruct (g b) as [t'' r]. by rewrite app_assoc.
Qed.

Lemma bind_step {A B} (t : list Event) (a : A) (f : A -> M B) :
  bind (t, inr a) f = (t ++ trace (f a), outcome (f a)).
Proof. simpl. by destruct (f a). Qed.

Lemma bind_nil {A B} (a : A) (f : A -> M B) : bind ([], inr a) f = f a.
Proof. apply bind_ret_l. Qed.

(** ** The access guard *)

Section AccessGuard.

Import Guard Scenarios.

Lemma truthy_str_nonempty (s : string) : truthy_str s = true <-> s <> "".
Proof. destruct s; simpl; split; intros H; congruence. Qed.

Lemma alphabet_no_padding : Forall (fun c => c <> "="%char) urlsafe_alphabet.
Proof. unfold urlsafe_alphabet. simpl. repeat constructor; discriminate. Qed.

Lemma sextet_not_padding (n : N) : sextet n <> "="%char.
Proof.
  unfold sextet.
  destruct (nth_in_or_default (N.to_nat n) urlsafe_alphabet "A"%char) as [Hin | ->].
  - pose proof alphabet_no_padding as HF.
    rewrite List.Forall_forall in HF. exact (HF _ Hin).
  - discriminate.
Qed.

Lemma urlsafe_b64encode_head (a : N) (bs : list N) :
  exists n tl, urlsafe_b64encode (a :: bs) = sextet n :: tl.
Proof.
  destruct bs as [|b [|c rest]]; simpl; eauto.
Qed.

Lemma rstrip_head (ch c : ascii) (l : list ascii) :
  c <> ch -> rstrip ch (c :: l) <> [].
Proof.
  intros Hne. unfold rstrip. simpl.
  destruct (fold_right _ [] l).
  - destruct (Ascii.eqb_spec c ch); [contradiction | discriminate].
  - discriminate.
Qed.

Lemma token_urlsafe_nonempty (entropy : nat -> byte) (n : nat) :
  token_urlsafe entropy (S n) <> "".
Proof.
  unfold token_urlsafe, token_bytes. simpl seq. simpl map.
  destruct (urlsafe_b64encode_head (Byte.to_N (entropy 0%nat))
              (map Byte.to_N (map entropy (seq 1 n)))) as (k & tl & ->).
  pose proof (rstrip_head "="%char (sextet k) tl (sextet_not_padding k)) as H.
  destruct (rstrip "=" (sextet k :: tl)); [contradiction | discriminate].
Qed.

(** The key in force after module initialisation is never empty. *)
Lemma API_KEY_nonempty environ entropy : API_KEY environ entropy <> "".
Proof.
  unfold API_KEY, init_API_KEY.
  destruct (environ !! "MCP_API_KEY") as [k|]; simpl.
  - destruct (truthy_str k) eqn:Hk; simpl.
    + by apply truthy_str_nonempty.
    + apply token_urlsafe_nonempty.
  - apply token_urlsafe_nonempty.
Qed.

(** A key set in the environment is the key in force. *)
Lemma API_KEY_configured environ entropy k :
  environ !! "MCP_API_KEY" = Some k -> k <> "" -> API_KEY environ entropy = k.
Proof.
  intros Hk Hne. unfold API_KEY, init_API_KEY. rewrite Hk.
  apply truthy_str_nonempty in Hne. by rewrite Hne.
Qed.

Lemma compare_digest_true (a b : string) : compare_digest a b = inr true -> a = b.
Proof.
  unfold compare_digest. destruct (is_ascii a && is_ascii b); [|discriminate].
  intros H. injection H as H. by apply String.eqb_eq.
Qed.

(** Whatever the strings, [True] is returned only for the configured key. *)
Lemma validate_api_key_sound key provided :
  validate_api_key key provided = inr true -> provided = Some key.
Proof.
  unfold validate_api_key. destruct provided as [p|]; [|discriminate].
  destruct (negb (truthy_str p) || negb (truthy_str key)); [discriminate|].
  intros H. f_equal. by apply compare_digest_true.
Qed.

(** A non-ASCII character in either non-empty string makes the call raise. *)
Lemma validate_api_key_non_ascii key p :
  p <> "" -> key <> "" -> is_ascii p && is_ascii key = false ->
  validate_api_key key (Some p) =
  inl (TypeError "comparing strings with non-ASCII characters is not supported").
Proof.
  intros Hp Hk Ha. unfold validate_api_key, compare_digest.
  apply truthy_str_nonempty in Hp, Hk. rewrite Hp, Hk, Ha. reflexivity.
Qed.

(** C6 (as amended): for ASCII-only provided and configured secrets,
    [validate_api_key] returns true exactly when the provided secret equals
    the configured one; an absent or empty provided secret, or an empty
    configured one, always yields false; whenever both are non-empty the
    answer is that of [secrets.compare_digest]; and the key in force after
    start-up is never empty. *)
Theorem validate_api_key_ascii environ entropy (p : string)
  (Hp : is_ascii p = true) (Hkey : is_ascii (API_KEY environ entropy) = true) :
  let key := API_KEY environ entropy in
  key <> "" /\
  (validate_api_key key (Some p) = inr true <-> p = key) /\
  validate_api_key key (Some p) = inr (String.eqb p key) /\
  (forall k, validate_api_key k None = inr false) /\
  (forall k, validate_api_key k (Some "") = inr false) /\
  (forall q, validate_api_key "" q = inr false) /\
  (forall q, q <> "" -> validate_api_key key (Some q) = compare_digest q key).
Proof.
  intros key. pose proof (API_KEY_nonempty environ entropy) as Hne.
  fold key in Hne, Hkey.
  assert (Hk : truthy_str key = true) by by apply truthy_str_nonempty.
  assert (Heq : validate_api_key key (Some p) = inr (String.eqb p key)).
  { unfold validate_api_key, compare_digest. rewrite Hk, Hp, Hkey. simpl.
    destruct p; simpl; [|reflexivity].
    destruct key; [contradiction | reflexivity]. }
  split_and!; auto.
  - rewrite Heq. split.
    + intros H. injection H as H. by apply String.eqb_eq.
    + intros ->. by rewrite String.eqb_refl.
  - intros q. unfold validate_api_key. destruct q as [q|]; [|done].
    by rewrite orb_true_r.
  - intros q Hq. unfold validate_api_key.
    apply truthy_str_nonempty in Hq. by rewrite Hq, Hk.
Qed.

Lemma validate_api_key_ascii_witness :
  validate_api_key (API_KEY small_env zero_entropy) (Some "s3cret") = inr true
  <-> "s3cret" = API_KEY small_env zero_entropy.
Proof.
  exact (proj1 (proj2 (validate_api_key_ascii small_env zero_entropy "s3cret"
                         eq_refl eq_refl))).
Defined.

(** C6 as stated fails: the provided secret equals the configured one,
    yet the call does not return true: it raises. *)
Lemma validate_api_key_non_ascii_counterexample :
  API_KEY latin_env zero_entropy = e_acute /\
  validate_api_key (API_KEY latin_env zero_entropy) (Some e_acute) =
    inl (TypeError "comparing strings with non-ASCII characters is not supported") /\
  ~ (validate_api_key (API_KEY latin_env zero_entropy) (Some e_acute) = inr true
     <-> e_acute = API_KEY latin_env zero_entropy).
Proof.
  split_and!; [reflexivity | reflexivity |].
  intros [_ H]. specialize (H eq_refl). discriminate H.
Qed.

(** The generated key: 32 zero bytes give 43 characters. *)
Example token_urlsafe_zero :
  token_urlsafe zero_entropy 32 = "AAAAAAAAAAAAAAAAAAAAAAAAAAAAAAAAAAAAAAAAAAA".
Proof. reflexivity. Qed.

Example urlsafe_b64encode_Man :
  string_of_list_ascii (urlsafe_b64encode [77; 97; 110]%N) = "TWFu" /\
  string_of_list_ascii (urlsafe_b64encode [77; 97]%N) = "TWE=" /\
  string_of_list_ascii (urlsafe_b64encode [77]%N) = "TQ==" /\
  string_of_list_ascii (urlsafe_b64encode [251; 255; 191]%N) = "-_-_".
Proof. repeat split. Qed.

End AccessGuard.

(** ** The tools *)

Section ToolFacts.

Import Lifespan Tools.

Lemma calls_app (t1 t2 : list Event) : calls (t1 ++ t2) = calls t1 ++ calls t2.
Proof. unfold calls. apply omap_app. Qed.

Lemma elem_of_calls (t : list Event) svc call :
  In (Execute svc call) t <-> In (svc, call) (calls t).
Proof.
  induction t as [|ev t IH]; simpl; [done|].
  destruct ev; simpl; rewrite <- ?IH; intuition (try discriminate); try congruence.
Qed.

Lemma quiet_ret {A} (a : A) : quiet (ret a).
Proof. reflexivity. Qed.

Lemma quiet_raise {A} (e : Exn) : quiet (@raise A e).
Proof. reflexivity. Qed.

Lemma quiet_lift {A} (r : Exn + A) : quiet (lift r).
Proof. reflexivity. Qed.

Lemma quiet_log lvl msg : quiet (log lvl msg).
Proof. reflexivity. Qed.

Lemma quiet_bind {A B} (m : M A) (f : A -> M B) :
  quiet m -> (forall a, quiet (f a)) -> quiet (bind m f).
Proof.
  unfold quiet. intros Hm Hf. rewrite trace_bind, calls_app, Hm.
  destruct (outcome m); [done | apply Hf].
Qed.

Lemma quiet_mapM {A B} (f : A -> M B) (l : list A) :
  (forall a, quiet (f a)) -> quiet (mapM f l).
Proof.
  intros Hf. induction l as [|x l IH]; simpl.
  - apply quiet_ret.
  - apply quiet_bind; [apply Hf|]. intros y.
    apply quiet_bind; [apply IH|]. intros ys. apply quiet_ret.
Qed.

Lemma quiet_if {A} (b : bool) (m1 m2 : M A) :
  quiet m1 -> quiet m2 -> quiet (if b then m1 else m2).
Proof. by destruct b. Qed.

Create HintDb quiet.
#[local] Hint Resolve quiet_ret quiet_raise quiet_lift quiet_log quiet_mapM quiet_if : quiet.
#[local] Hint Extern 1 (quiet (_, _)) => reflexivity : quiet.
#[local] Hint Extern 2 (quiet (bind _ _)) => apply quiet_bind; [|intros ?] : quiet.

Lemma guarded_failure ctx svc call post msg e :
  answer ctx svc call = inl e ->
  guarded ctx svc call post msg =
  ([Execute svc call; Log ERROR [Lit msg; Err e]], inl e).
Proof.
  intros H. unfold guarded, execute, perform. rewrite H. reflexivity.
Qed.

Lemma guarded_calls ctx svc call post msg :
  (forall r, quiet (post r)) ->
  calls (trace (guarded ctx svc call post msg)) = [(svc, call)].
Proof.
  intros Hq. unfold guarded, execute, perform.
  destruct (answer ctx svc call) as [e|r]; [reflexivity|].
  rewrite trace_try_except, outcome_bind, trace_bind, !calls_app. simpl.
  rewrite (Hq r). by destruct (outcome (post r)).
Qed.

Ltac quiet_post := intros ?; cbv beta zeta; auto 30 with quiet.

(** Every tool with a remote call is some quiet logging followed by a
    guarded call of its request. *)
Lemma run_tool_guarded ctx t svc call :
  request_of ctx t = Some (svc, call) ->
  exists pre post,
    calls pre = [] /\
    (forall r, quiet (post r)) /\
    run_tool ctx t =
    bind (pre, inr tt) (fun _ => guarded ctx svc call post (operation t)).
Proof.
  intros Hreq. destruct t; simpl in Hreq; try discriminate; injection Hreq as <- <-;
    cbn [run_tool operation].
  - exists []. destruct include_grid_data.
    + eexists. split; [done|]. split; cycle 1.
      { rewrite bind_nil. unfold get_sheet_data, guarded. reflexivity. }
      quiet_post.
    + eexists. split; [done|]. split; cycle 1.
      { rewrite bind_nil. unfold get_sheet_data, guarded.
        rewrite bind_assoc. reflexivity. }
      quiet_post.
  - exists []. eexists. split; [done|]. split; cycle 1.
    { rewrite bind_nil. unfold update_cells, guarded. reflexivity. }
    quiet_post.
  - exists []. eexists. split; [done|]. split; cycle 1.
    { rewrite bind_nil. unfold create_spreadsheet, guarded. reflexivity. }
    quiet_post.
  - unfold list_spreadsheets.
    destruct (folder_id ctx) as [f|]; [destruct (truthy_str f)|].
    + eexists [_]. eexists. split; [|split]; cycle 2.
      { unfold guarded, log, emit.
        rewrite bind_assoc, !bind_step, bind_ret_l. reflexivity. }
      { done. }
      quiet_post.
    + eexists [_]. eexists. split; [|split]; cycle 2.
      { unfold guarded, log, emit.
        rewrite bind_assoc, !bind_step, bind_ret_l. reflexivity. }
      { done. }
      quiet_post.
    + eexists [_]. eexists. split; [|split]; cycle 2.
      { unfold guarded, log, emit.
        rewrite bind_assoc, !bind_step, bind_ret_l. reflexivity. }
      { done. }
      quiet_post.
  - exists []. eexists. split; [done|]. split; cycle 1.
    { rewrite bind_nil. unfold add_rows, guarded. reflexivity. }
    quiet_post.
  - exists []. eexists. split; [done|]. split; cycle 1.
    { rewrite bind_nil. unfold list_sheets, guarded. reflexivity. }
    quiet_post.
  - exists []. eexists. split; [done|]. split; cycle 1.
    { rewrite bind_nil. unfold create_sheet, guarded. reflexivity. }
    quiet_post.
Qed.

End ToolFacts.

Section ToolClaims.

Import Lifespan Tools Scenarios.

(** A tool with a remote call performs exactly that one call. *)
Lemma run_tool_calls ctx t :
  calls (trace (run_tool ctx t)) =
  match request_of ctx t with Some sc => [sc] | None => [] end.
Proof.
  destruct (request_of ctx t) as [[svc call]|] eqn:Hreq.
  - destruct (run_tool_guarded ctx t svc call Hreq) as (pre & post & Hpre & Hq & ->).
    rewrite bind_step. simpl. rewrite calls_app, Hpre. simpl.
    by apply guarded_calls.
  - destruct t; try discriminate. reflexivity.
Qed.

(** C7: for every tool, when the remote call it performs fails, the
    failure is logged by the tool's handler, naming the operation and the
    exception, and that same exception is what the tool raises; no success
    value is returned. *)
Theorem remote_failure_reraised ctx t svc call e :
  In (Execute svc call) (trace (run_tool ctx t)) ->
  answer ctx svc call = inl e ->
  outcome (run_tool ctx t) = inl e /\
  last (trace (run_tool ctx t)) = Some (Log ERROR [Lit (operation t); Err e]).
Proof.
  intros Hin Hfail.
  apply elem_of_calls in Hin. rewrite run_tool_calls in Hin.
  destruct (request_of ctx t) as [[svc0 call0]|] eqn:Hreq; [|destruct Hin].
  destruct Hin as [Heq | []]. injection Heq as -> ->.
  destruct (run_tool_guarded ctx t svc call Hreq) as (pre & post & _ & _ & ->).
  rewrite bind_step, (guarded_failure _ _ _ _ _ _ Hfail). simpl. split; [done|].
  change (pre ++ [Execute svc call; Log ERROR [Lit (operation t); Err e]])
    with (pre ++ [Execute svc call] ++ [Log ERROR [Lit (operation t); Err e]]).
  rewrite app_assoc. apply last_snoc.
Qed.

Lemma remote_failure_reraised_witness :
  outcome (run_tool failing_ctx (AddRows "doc" "Sheet1" two_rows)) = inl not_found /\
  last (trace (run_tool failing_ctx (AddRows "doc" "Sheet1" two_rows))) =
    Some (Log ERROR [Lit "Error adding rows: "; Err not_found]).
Proof.
  apply (remote_failure_reraised failing_ctx (AddRows "doc" "Sheet1" two_rows) Sheets
           (ValuesAppend "doc" "Sheet1" "USER_ENTERED"
              [("values", JList (map JList two_rows))]) not_found).
  - simpl. left. reflexivity.
  - reflexivity.
Defined.

(** C3: a successful values-only read returns
    [{spreadsheetId, valueRanges: [{range, values}]}]: one element, whose
    range is the string sent to the remote call and whose values are the
    remote answer's ["values"], or the empty list when it has none. *)
Theorem get_sheet_data_values_only ctx sid sheet range result :
  outcome (get_sheet_data ctx sid sheet range false) = inr result ->
  exists values_result,
    calls (trace (get_sheet_data ctx sid sheet range false)) =
      [(Sheets, ValuesGet sid (full_range sheet range))] /\
    answer ctx Sheets (ValuesGet sid (full_range sheet range)) = inr values_result /\
    result =
      JDict [("spreadsheetId", JStr sid);
             ("valueRanges",
              JList [JDict [("range", JStr (full_range sheet range));
                            ("values",
                             match dict_lookup "values" values_result with
                             | Some values => values
                             | None => JList []
                             end)]])].
Proof.
  intros Hok.
  pose proof (run_tool_calls ctx (GetSheetData sid sheet range false)) as Hcalls.
  simpl in Hcalls.
  unfold get_sheet_data, execute, perform in Hok.
  destruct (answer ctx Sheets (ValuesGet sid (full_range sheet range)))
    as [e|values_result] eqn:Hans; simpl in Hok; [discriminate|].
  exists values_result. split_and!; [exact Hcalls | reflexivity |].
  injection Hok as <-. reflexivity.
Qed.

Lemma get_sheet_data_values_only_witness :
  exists values_result,
    calls (trace (get_sheet_data demo_ctx "doc" "Sheet1" (Some "A1:B2") false)) =
      [(Sheets, ValuesGet "doc" "Sheet1!A1:B2")] /\
    answer demo_ctx Sheets (ValuesGet "doc" "Sheet1!A1:B2") = inr values_result /\
    JDict [("spreadsheetId", JStr "doc");
           ("valueRanges",
            JList [JDict [("range", JStr "Sheet1!A1:B2");
                          ("values", JList (map JList two_rows))]])] =
      JDict [("spreadsheetId", JStr "doc");
             ("valueRanges",
              JList [JDict [("range", JStr "Sheet1!A1:B2");
                            ("values",
                             match dict_lookup "values" values_result with
                             | Some values => values
                             | None => JList []
                             end)]])].
Proof.
  exact (get_sheet_data_values_only demo_ctx "doc" "Sheet1" (Some "A1:B2") _ eq_refl).
Defined.

(** The remote answer has no ["values"]: the result carries the empty list. *)
Example get_sheet_data_no_values :
  outcome (get_sheet_data bare_ctx "doc" "Empty" None true) = inr (JDict []) /\
  outcome (get_sheet_data
             {| sheets_service := fun _ => inr [("range", JStr "Empty!A1:Z1000")];
                drive_service := failing_service; folder_id := None |}
             "doc" "Empty" None false) =
    inr (JDict [("spreadsheetId", JStr "doc");
                ("valueRanges",
                 JList [JDict [("range", JStr "Empty"); ("values", JList [])]])]).
Proof. split; reflexivity. Qed.

(** C10 (as amended): the range string sent to the remote API is the
    sheet name, ["!"] and the range argument when a non-empty range is
    given, and the bare sheet name when the range is omitted, [None] or
    the empty string. *)
Theorem get_sheet_data_sent_range ctx sid sheet r grid :
  r <> "" ->
  sent_ranges (trace (get_sheet_data ctx sid sheet (Some r) grid)) = [sheet +:+ "!" +:+ r] /\
  sent_ranges (trace (get_sheet_data ctx sid sheet None grid)) = [sheet] /\
  sent_ranges (trace (get_sheet_data ctx sid sheet (Some "") grid)) = [sheet].
Proof.
  intros Hr. unfold sent_ranges.
  pose proof (fun range => run_tool_calls ctx (GetSheetData sid sheet range grid)) as H.
  simpl in H. rewrite !H.
  apply truthy_str_nonempty in Hr.
  destruct grid; simpl; rewrite Hr; done.
Qed.

Lemma get_sheet_data_sent_range_witness :
  sent_ranges (trace (get_sheet_data demo_ctx "doc" "Sheet1" (Some "A1:C10") false)) =
    ["Sheet1!A1:C10"] /\
  sent_ranges (trace (get_sheet_data demo_ctx "doc" "Sheet1" None false)) = ["Sheet1"] /\
  sent_ranges (trace (get_sheet_data demo_ctx "doc" "Sheet1" (Some "") false)) = ["Sheet1"].
Proof.
  apply (get_sheet_data_sent_range demo_ctx "doc" "Sheet1" "A1:C10" false).
  discriminate.
Defined.

(** C10 as stated fails: the range argument is provided (it is neither
    omitted nor [None]) and is the empty string; the string sent is the
    bare sheet name, not the sheet name followed by ["!"] and the
    argument. *)
Lemma get_sheet_data_empty_range_counterexample :
  sent_ranges (trace (get_sheet_data demo_ctx "doc" "Sheet1" (Some "") false)) = ["Sheet1"] /\
  sent_ranges (trace (get_sheet_data demo_ctx "doc" "Sheet1" (Some "") false)) <>
    ["Sheet1" +:+ "!" +:+ ""].
Proof. split; [reflexivity | discriminate]. Qed.

(** C9: [add_rows] sends its append request with the sheet name itself as
    the range, and on success logs the length of [data] as the number of
    rows added and returns the remote answer. *)
Theorem add_rows_targets_sheet ctx sid sheet data result :
  answer ctx Sheets
    (ValuesAppend sid sheet "USER_ENTERED" [("values", JList (map JList data))])
    = inr result ->
  calls (trace (add_rows ctx sid sheet data)) =
    [(Sheets, ValuesAppend sid sheet "USER_ENTERED" [("values", JList (map JList data))])] /\
  sent_ranges (trace (add_rows ctx sid sheet data)) = [sheet] /\
  add_rows ctx sid sheet data =
    ([Execute Sheets
        (ValuesAppend sid sheet "USER_ENTERED" [("values", JList (map JList data))]);
      Log INFO [Lit "Successfully added "; Num (length data); Lit " rows to ";
                Str sid; Lit ", sheet: "; Str sheet]],
     inr (JDict result)).
Proof.
  intros Hans.
  pose proof (run_tool_calls ctx (AddRows sid sheet data)) as Hcalls. simpl in Hcalls.
  split_and!.
  - exact Hcalls.
  - unfold sent_ranges. by rewrite Hcalls.
  - unfold add_rows, execute, perform. rewrite Hans. reflexivity.
Qed.

Lemma add_rows_targets_sheet_witness :
  calls (trace (add_rows demo_ctx "doc" "Sheet1" two_rows)) =
    [(Sheets, ValuesAppend "doc" "Sheet1" "USER_ENTERED"
                [("values", JList (map JList two_rows))])] /\
  sent_ranges (trace (add_rows demo_ctx "doc" "Sheet1" two_rows)) = ["Sheet1"] /\
  add_rows demo_ctx "doc" "Sheet1" two_rows =
    ([Execute Sheets
        (ValuesAppend "doc" "Sheet1" "USER_ENTERED"
           [("values", JList (map JList two_rows))]);
      Log INFO [Lit "Successfully added "; Num (length two_rows); Lit " rows to ";
                Str "doc"; Lit ", sheet: "; Str "Sheet1"]],
     inr (JDict [("spreadsheetId", JStr "doc");
                 ("updates", JDict [("updatedRows", JInt 2)])])).
Proof.
  exact (add_rows_targets_sheet demo_ctx "doc" "Sheet1" two_rows _ eq_refl).
Defined.

Lemma create_spreadsheet_success ctx title spreadsheet folder :
  answer ctx Drive (FilesCreate true (file_body (folder_id ctx) title) "id, name, parents")
    = inr spreadsheet ->
  (if truthy (dict_get spreadsheet "parents" JNull)
   then getitem0 (dict_get spreadsheet "parents" JNull)
   else inr (JStr "root")) = inr folder ->
  outcome (create_spreadsheet ctx title) =
    inr (JDict [("spreadsheetId", dict_get spreadsheet "id" JNull);
                ("title", dict_get spreadsheet "name" (JStr title));
                ("folder", folder)]).
Proof.
  intros Hans Hfolder. unfold create_spreadsheet, execute, perform.
  rewrite Hans. simpl.
  destruct (truthy (dict_get spreadsheet "parents" JNull)); simpl.
  - rewrite Hfolder. reflexivity.
  - injection Hfolder as <-. reflexivity.
Qed.

(** C8 (as amended): with a non-empty working folder configured, the
    request body's [parents] is the one-element list of that identifier;
    with none configured the body has no [parents] field.  The returned
    [folder] is the first parent listed in the remote answer, and is the
    string ["root"] when the answer lists no parents. *)
Theorem create_spreadsheet_parents ctx title spreadsheet :
  answer ctx Drive (FilesCreate true (file_body (folder_id ctx) title) "id, name, parents")
    = inr spreadsheet ->
  created_bodies (trace (create_spreadsheet ctx title)) = [file_body (folder_id ctx) title] /\
  (forall f, folder_id ctx = Some f -> f <> "" ->
     dict_lookup "parents" (file_body (folder_id ctx) title) = Some (JList [JStr f])) /\
  (folder_id ctx = None \/ folder_id ctx = Some "" ->
     dict_lookup "parents" (file_body (folder_id ctx) title) = None) /\
  (truthy (dict_get spreadsheet "parents" JNull) = false ->
     outcome (create_spreadsheet ctx title) =
       inr (JDict [("spreadsheetId", dict_get spreadsheet "id" JNull);
                   ("title", dict_get spreadsheet "name" (JStr title));
                   ("folder", JStr "root")])) /\
  (forall p rest, dict_lookup "parents" spreadsheet = Some (JList (p :: rest)) ->
     outcome (create_spreadsheet ctx title) =
       inr (JDict [("spreadsheetId", dict_get spreadsheet "id" JNull);
                   ("title", dict_get spreadsheet "name" (JStr title));
                   ("folder", p)])).
Proof.
  intros Hans.
  pose proof (run_tool_calls ctx (CreateSpreadsheet title)) as Hcalls. simpl in Hcalls.
  split_and!.
  - unfold created_bodies. by rewrite Hcalls.
  - intros f -> Hf. apply truthy_str_nonempty in Hf.
    unfold file_body. by rewrite Hf.
  - by intros [-> | ->].
  - intros Hfalsy. apply (create_spreadsheet_success _ _ _ _ Hans). by rewrite Hfalsy.
  - intros p rest Hp. apply (create_spreadsheet_success _ _ _ _ Hans).
    unfold dict_get. by rewrite Hp.
Qed.

Lemma create_spreadsheet_parents_witness :
  dict_lookup "parents" (file_body (folder_id folder_ctx) "Budget")
    = Some (JList [JStr "folder42"]) /\
  dict_lookup "parents" (file_body (folder_id bare_ctx) "Budget") = None /\
  outcome (create_spreadsheet bare_ctx "Budget") =
    inr (JDict [("spreadsheetId", JStr "1AbC"); ("title", JStr "Budget");
                ("folder", JStr "root")]) /\
  outcome (create_spreadsheet folder_ctx "Budget") =
    inr (JDict [("spreadsheetId", JStr "1AbC"); ("title", JStr "Budget");
                ("folder", JStr "folder42")]).
Proof.
  pose proof (create_spreadsheet_parents folder_ctx "Budget" _ eq_refl)
    as (_ & Hset & _ & _ & Hfirst).
  pose proof (create_spreadsheet_parents bare_ctx "Budget" _ eq_refl)
    as (_ & _ & Hunset & Hroot & _).
  split; [exact (Hset "folder42" eq_refl ltac:(discriminate))|].
  split; [exact (Hunset (or_introl eq_refl))|].
  split; [exact (Hroot eq_refl)|].
  exact (Hfirst (JStr "folder42") [] eq_refl).
Defined.

(** C8 as stated fails: no folder is configured and the request body has
    no [parents] field, yet the returned [folder] is not ["root"]: it is
    the parent the remote answer lists. *)
Lemma create_spreadsheet_root_counterexample :
  folder_id demo_ctx = None /\
  created_bodies (trace (create_spreadsheet demo_ctx "Budget")) =
    [[("name", JStr "Budget");
      ("mimeType", JStr "application/vnd.google-apps.spreadsheet")]] /\
  outcome (create_spreadsheet demo_ctx "Budget") =
    inr (JDict [("spreadsheetId", JStr "1AbC"); ("title", JStr "Budget");
                ("folder", JStr "0AExampleRootId")]) /\
  outcome (create_spreadsheet demo_ctx "Budget") <>
    inr (JDict [("spreadsheetId", JStr "1AbC"); ("title", JStr "Budget");
                ("folder", JStr "root")]).
Proof. split_and!; [reflexivity | reflexivity | reflexivity | discriminate]. Qed.

End ToolClaims.

(** ** Credential resolution *)

Section ResolutionFacts.

Import Lifespan.

Lemma invoked_sources_app (t1 t2 : list Event) :
  invoked_sources (t1 ++ t2) = invoked_sources t1 ++ invoked_sources t2.
Proof. apply omap_app. Qed.

Lemma ranked_nil lo hi : ranked lo hi [].
Proof. split; constructor. Qed.

Lemma ranked_one lo hi s : lo <= rank s <= hi -> ranked lo hi [s].
Proof. intros H. split; repeat constructor; lia. Qed.

Lemma ranked_app lo mid mid' hi l1 l2 :
  lo <= mid -> mid <= mid' -> mid' <= hi ->
  ranked lo mid l1 -> ranked mid' hi l2 -> ranked lo hi (l1 ++ l2).
Proof.
  intros H1 H2 H3 [Ho1 Hb1] [Ho2 Hb2]. split.
  - apply StronglySorted_app_2; [|done|done].
    intros x1 x2 Hx1 Hx2.
    rewrite Forall_forall in Hb1, Hb2.
    specialize (Hb1 _ Hx1). specialize (Hb2 _ Hx2). lia.
  - apply Forall_app. split.
    + eapply Forall_impl; [exact Hb1|]. simpl. intros; lia.
    + eapply Forall_impl; [exact Hb2|]. simpl. intros; lia.
Qed.

Lemma ranked_weaken lo hi lo' hi' l :
  lo' <= lo -> hi <= hi' -> ranked lo hi l -> ranked lo' hi' l.
Proof.
  intros H1 H2 [Ho Hb]. split; [done|].
  eapply Forall_impl; [exact Hb|]. simpl. intros; lia.
Qed.

Lemma ranked_below lo hi l s : ranked lo hi l -> In s l -> rank s <= hi.
Proof.
  intros [_ Hb] Hin. rewrite Forall_forall in Hb.
  apply list_elem_of_In in Hin. specialize (Hb _ Hin). lia.
Qed.

(** *** Priority 1 *)

Lemma priority1_cases w :
  (exists c, yields w InlineBlob c /\ outcome (priority1 w None) = inr (Some c)) \/
  ((forall c, ~ yields w InlineBlob c) /\ outcome (priority1 w None) = inr None).
Proof.
  unfold priority1.
  destruct (CREDENTIALS_CONFIG w) as [blob|] eqn:Hcfg.
  - destruct (truthy_str blob) eqn:Hblob.
    + unfold perform.
      destruct (decode_service_account_info w blob) as [e|c] eqn:Hdec; simpl.
      * right. split; [|done]. intros c Hy. inversion Hy; congruence.
      * left. exists c. split; [|done].
        eapply yields_inline; eauto. by apply truthy_str_nonempty.
    + right. split; [|done]. intros c Hy. inversion Hy as [blob' ? H1 H2 H3| | | | |].
      rewrite Hcfg in H1. injection H1 as <-.
      apply truthy_str_nonempty in H2. congruence.
  - right. split; [|done]. intros c Hy. inversion Hy; congruence.
Qed.

Lemma priority1_ranked w creds : ranked 0 0 (sources (priority1 w creds)).
Proof.
  unfold sources, priority1.
  destruct (CREDENTIALS_CONFIG w) as [blob|]; [|apply ranked_nil].
  destruct (truthy_str blob); [|apply ranked_nil].
  unfold perform. destruct (decode_service_account_info w blob); simpl;
    by apply ranked_one.
Qed.

(** *** Priority 2 *)

Lemma priority2_skip w c :
  outcome (priority2 w (Some c)) = inr (Some c) /\ sources (priority2 w (Some c)) = [].
Proof.
  unfold sources, priority2, probe, perform.
  destruct (truthy_str (SERVICE_ACCOUNT_PATH w)); simpl; done.
Qed.

Lemma priority2_cases w :
  (exists c, yields w ServiceAccountFile c /\ outcome (priority2 w None) = inr (Some c)) \/
  ((forall c, ~ yields w ServiceAccountFile c) /\ outcome (priority2 w None) = inr None).
Proof.
  unfold priority2, probe, perform.
  destruct (truthy_str (SERVICE_ACCOUNT_PATH w)) eqn:Hsap; simpl.
  - destruct (path_exists w (SERVICE_ACCOUNT_PATH w)) eqn:Hex; simpl.
    + destruct (from_service_account_file w (SERVICE_ACCOUNT_PATH w)) as [e|c] eqn:Hload;
        simpl.
      * right. split; [|done]. intros c Hy. inversion Hy; congruence.
      * left. exists c. split; [|done].
        apply yields_file; auto. by apply truthy_str_nonempty.
    + right. split; [|done]. intros c Hy. inversion Hy; congruence.
  - right. split; [|done]. intros c Hy. inversion Hy as [|? H1 H2 H3| | | |].
    apply truthy_str_nonempty in H1. congruence.
Qed.

Lemma priority2_ranked w creds : ranked 1 1 (sources (priority2 w creds)).
Proof.
  destruct creds as [c|].
  - rewrite (proj2 (priority2_skip w c)). apply ranked_nil.
  - unfold sources, priority2, probe, perform.
    destruct (truthy_str (SERVICE_ACCOUNT_PATH w)); simpl; [|apply ranked_nil].
    destruct (path_exists w (SERVICE_ACCOUNT_PATH w)); simpl; [|apply ranked_nil].
    destruct (from_service_account_file w (SERVICE_ACCOUNT_PATH w)); simpl;
      by apply ranked_one.
Qed.

(** *** Priority 3 *)

(** [Request] is not a name of the module: the refresh is never made. *)
Lemma refresh_call_raises w c : refresh_call w c = ([], inl (NameError "Request")).
Proof. reflexivity. Qed.

Lemma refresh_token_step_discards w c :
  expired c = true -> truthy_opt_str (refresh_token c) = true ->
  refresh_token_step w (Some c) =
  ([Log ERROR [Lit "Error refreshing OAuth token: "; Err (NameError "Request")]],
   inr None).
Proof. intros He Hr. unfold refresh_token_step. rewrite He, Hr. reflexivity. Qed.

Lemma refresh_token_step_keeps w creds :
  match creds with
  | Some c => expired c && truthy_opt_str (refresh_token c) = false
  | None => True
  end ->
  refresh_token_step w creds = ret creds.
Proof.
  destruct creds as [c|]; [|done]. intros H. unfold refresh_token_step. by rewrite H.
Qed.

Lemma priority3_skip w c : priority3 w (Some c) = ret (Some c).
Proof. reflexivity. Qed.

Lemma interactive_flow_cases w :
  (exists c, yields w InteractiveFlow c /\
             outcome (interactive_flow w None) = inr (Some c)) \/
  ((forall c, ~ yields w InteractiveFlow c) /\
   outcome (interactive_flow w None) = inr None).
Proof.
  unfold interactive_flow, perform.
  destruct (run_local_server w (CREDENTIALS_PATH w)) as [e|c] eqn:Hflow; simpl.
  - right. split; [|done]. intros c Hy. inversion Hy; congruence.
  - destruct (write_token w (TOKEN_PATH w) c) as [e|[]] eqn:Hwrite; simpl.
    + right. split; [|done]. intros c' Hy. inversion Hy; congruence.
    + left. exists c. split; [|done]. by apply yields_flow.
Qed.

Lemma interactive_flow_ranked w creds : ranked 3 3 (sources (interactive_flow w creds)).
Proof.
  unfold sources, interactive_flow, perform.
  destruct creds; [apply ranked_nil|].
  destruct (run_local_server w (CREDENTIALS_PATH w)) as [e|c]; simpl.
  - by apply ranked_one.
  - destruct (write_token w (TOKEN_PATH w) c) as [e|[]]; simpl;
      (split; [repeat constructor; simpl; lia | repeat constructor; simpl; lia]).
Qed.

Lemma load_token_cases w :
  (exists c, yields w CachedToken c /\ path_exists w (TOKEN_PATH w) = true /\
             load_authorized_user w (TOKEN_PATH w) = inr c /\
             load_token w None =
               ([Probe (TOKEN_PATH w); LoadToken (TOKEN_PATH w);
                 Log INFO [Lit "Loaded existing OAuth token"]], inr (Some c))) \/
  ((forall c, ~ yields w CachedToken c) /\
   outcome (load_token w None) = inr None /\
   ranked 2 2 (sources (load_token w None))).
Proof.
  unfold sources, load_token, probe, perform. simpl.
  destruct (path_exists w (TOKEN_PATH w)) eqn:Hex; simpl.
  - destruct (load_authorized_user w (TOKEN_PATH w)) as [e|c] eqn:Hload; simpl.
    + right. split_and!; [|done|by apply ranked_one].
      intros c Hy. inversion Hy; congruence.
    + left. exists c. split_and!; try done. by apply yields_token.
  - right. split_and!; [|done|apply ranked_nil].
    intros c Hy. inversion Hy; congruence.
Qed.

(** What priority 3 does when no credential has been found so far: either
    the cached token is kept (it is valid, or it is invalid and cannot be
    refreshed), or the interactive flow decides. *)
Lemma priority3_cases w :
  (exists c,
      path_exists w (TOKEN_PATH w) = true /\
      load_authorized_user w (TOKEN_PATH w) = inr c /\
      (valid c = true \/ expired c && truthy_opt_str (refresh_token c) = false) /\
      outcome (priority3 w None) = inr (Some c) /\
      sources (priority3 w None) = [CachedToken]) \/
  (((forall c, ~ yields w CachedToken c) \/
    (exists c,
        path_exists w (TOKEN_PATH w) = true /\
        load_authorized_user w (TOKEN_PATH w) = inr c /\
        valid c = false /\ expired c = true /\
        truthy_opt_str (refresh_token c) = true)) /\
   outcome (priority3 w None) = outcome (interactive_flow w None) /\
   exists pre,
     ranked 2 2 pre /\
     sources (priority3 w None) = pre ++ sources (interactive_flow w None)).
Proof.
  unfold priority3, sources.
  destruct (load_token_cases w) as [(c & Hy & Hex & Hload & Heq) | (Hno & Hout & Hrk)].
  - rewrite Heq. unfold log, emit. rewrite !bind_step. cbn [app trace outcome fst snd].
    unfold missing_or_invalid.
    destruct (valid c) eqn:Hvalid; cbn [negb].
    + left. exists c. split_and!; auto.
    + destruct (expired c && truthy_opt_str (refresh_token c)) eqn:Hrefresh.
      * apply andb_true_iff in Hrefresh as [He Hr].
        rewrite (refresh_token_step_discards w c He Hr), bind_step.
        cbn [app trace outcome fst snd].
        right. split_and!; [right; exists c; split_and!; auto | done |].
        exists [CachedToken]. split; [by apply ranked_one|]. reflexivity.
      * rewrite (refresh_token_step_keeps w (Some c) Hrefresh), bind_ret_l.
        left. exists c. split_and!; auto.
  - unfold log, emit. rewrite bind_step. cbn [trace outcome fst snd].
    destruct (load_token w None) as [tl rl]. simpl in Hout, Hrk. subst rl.
    rewrite bind_step. cbn [missing_or_invalid].
    rewrite (refresh_token_step_keeps w None I), bind_ret_l.
    cbn [trace outcome fst snd].
    right. split_and!; [by left | done |].
    exists (invoked_sources tl). split; [exact Hrk|].
    rewrite !invoked_sources_app. reflexivity.
Qed.

Lemma priority3_ranked w creds : ranked 2 3 (sources (priority3 w creds)).
Proof.
  destruct creds as [c|]; [apply ranked_nil|].
  destruct (priority3_cases w) as [(c & _ & _ & _ & _ & ->) | (_ & _ & pre & Hpre & ->)].
  - apply ranked_one. simpl. lia.
  - eapply (ranked_app 2 2 3 3); [lia | lia | lia | done |].
    apply interactive_flow_ranked.
Qed.

(** *** Priority 4 *)

Lemma priority4_skip w c : priority4 w (Some c) = ret c.
Proof. reflexivity. Qed.

Lemma priority4_cases w :
  (exists c, yields w AmbientDefault c /\ outcome (priority4 w None) = inr c) \/
  ((forall c, ~ yields w AmbientDefault c) /\
   outcome (priority4 w None) =
     inl (Exception_ "All authentication methods failed. Please configure credentials.")).
Proof.
  unfold priority4, perform, log, emit.
  destruct (auth_default w) as [e|[c project]] eqn:Hadc; simpl.
  - right. split; [|done]. intros c Hy. inversion Hy; congruence.
  - left. exists c. split; [|done]. by eapply yields_default.
Qed.

Lemma priority4_ranked w creds : ranked 4 4 (sources (priority4 w creds)).
Proof.
  destruct creds as [c|]; [apply ranked_nil|].
  unfold sources, priority4, perform, log, emit.
  destruct (auth_default w) as [e|[c project]]; simpl; by apply ranked_one.
Qed.

(** *** The chain *)

Lemma priority1_total w : exists o, outcome (priority1 w None) = inr o.
Proof. destruct (priority1_cases w) as [(c & _ & H) | [_ H]]; eauto. Qed.

Lemma priority2_total w creds : exists o, outcome (priority2 w creds) = inr o.
Proof.
  destruct creds as [c|].
  - exists (Some c). apply priority2_skip.
  - destruct (priority2_cases w) as [(c & _ & H) | [_ H]]; eauto.
Qed.

Lemma priority3_total w creds : exists o, outcome (priority3 w creds) = inr o.
Proof.
  destruct creds as [c|]; [by exists (Some c)|].
  destruct (priority3_cases w) as [(c & _ & _ & _ & H & _) | (_ & H & _)]; [eauto|].
  rewrite H. destruct (interactive_flow_cases w) as [(c & _ & H') | [_ H']]; eauto.
Qed.

(** The run of [resolve_credentials] is the four priorities one after
    the other, each handed the credential its predecessor left. *)
Lemma resolve_credentials_chain w :
  exists o1 o2 o3,
    outcome (priority1 w None) = inr o1 /\
    outcome (priority2 w o1) = inr o2 /\
    outcome (priority3 w o2) = inr o3 /\
    outcome (resolve_credentials w) = outcome (priority4 w o3) /\
    sources (resolve_credentials w) =
      sources (priority1 w None) ++ sources (priority2 w o1) ++
      sources (priority3 w o2) ++ sources (priority4 w o3).
Proof.
  destruct (priority1_total w) as [o1 H1].
  destruct (priority2_total w o1) as [o2 H2].
  destruct (priority3_total w o2) as [o3 H3].
  exists o1, o2, o3. split_and!; try done.
  - unfold resolve_credentials.
    rewrite outcome_bind, H1. cbv beta iota.
    rewrite outcome_bind, H2. cbv beta iota.
    rewrite outcome_bind, H3. reflexivity.
  - unfold sources, resolve_credentials.
    rewrite trace_bind, H1. cbv beta iota.
    rewrite trace_bind, H2. cbv beta iota.
    rewrite trace_bind, H3. cbv beta iota.
    by rewrite !invoked_sources_app.
Qed.

Lemma resolve_credentials_ranked w : ranked 0 4 (sources (resolve_credentials w)).
Proof.
  destruct (resolve_credentials_chain w) as (o1 & o2 & o3 & _ & _ & _ & _ & ->).
  eapply (ranked_app 0 0 1 4); [lia | lia | lia | apply priority1_ranked |].
  eapply (ranked_app 1 1 2 4); [lia | lia | lia | apply priority2_ranked |].
  eapply (ranked_app 2 3 4 4); [lia | lia | lia | apply priority3_ranked |].
  apply priority4_ranked.
Qed.

(** Once a source has produced a valid credential, nothing of a higher
    rank is touched. *)
Lemma sources_bounded w k c :
  yields w k c -> valid c = true ->
  ranked 0 (rank k) (sources (resolve_credentials w)).
Proof.
  intros Hy Hvalid.
  destruct (resolve_credentials_chain w) as (o1 & o2 & o3 & H1 & H2 & H3 & _ & ->).
  pose proof (priority1_ranked w None) as R1.
  destruct o1 as [c1|].
  { (* priority 1 settled it *)
    rewrite (proj2 (priority2_skip w c1)).
    rewrite (proj1 (priority2_skip w c1)) in H2. injection H2 as <-.
    rewrite priority3_skip in H3 |- *. injection H3 as <-.
    rewrite priority4_skip. cbn [sources trace ret fst invoked_sources omap].
    rewrite !app_nil_r.
    eapply ranked_weaken; [| |exact R1]; lia. }
  assert (Hk1 : 1 <= rank k).
  { destruct (priority1_cases w) as [(c1 & _ & H) | [Hno _]]; [congruence|].
    destruct Hy; simpl; try lia. exfalso. eapply Hno. by eapply yields_inline. }
  pose proof (priority2_ranked w None) as R2.
  destruct o2 as [c2|].
  { rewrite priority3_skip in H3 |- *. injection H3 as <-.
    rewrite priority4_skip. cbn [sources trace ret fst invoked_sources omap].
    rewrite !app_nil_r.
    eapply (ranked_app 0 0 1 (rank k)); [lia | lia | lia | exact R1 |].
    eapply ranked_weaken; [| |exact R2]; lia. }
  assert (Hk2 : 2 <= rank k).
  { destruct (priority2_cases w) as [(c2 & _ & H) | [Hno _]]; [congruence|].
    destruct Hy; simpl in *; try lia. exfalso. eapply Hno. by eapply yields_file. }
  destruct (priority3_cases w)
    as [(c3 & _ & _ & _ & H3' & Hs3) | (Htok & H3' & pre & Hpre & Hs3)].
  { (* the cached token is kept *)
    rewrite H3' in H3. injection H3 as <-.
    rewrite Hs3, priority4_skip. cbn [sources trace ret fst invoked_sources omap].
    rewrite app_nil_r.
    eapply (ranked_app 0 0 1 (rank k)); [lia | lia | lia | exact R1 |].
    eapply (ranked_app 1 1 2 (rank k)); [lia | lia | lia | exact R2 |].
    apply ranked_one. simpl. lia. }
  assert (Hk3 : 3 <= rank k).
  { destruct Hy as [ | | c Hex Hload | c0 c _ _ _ _ _ Hrefresh | | ];
      simpl in *; try lia; exfalso.
    - destruct Htok as [Hno | (c' & _ & Hload' & Hinvalid & _)].
      + eapply Hno. by eapply yields_token.
      + congruence.
    - discriminate Hrefresh. }
  rewrite Hs3.
  destruct (interactive_flow_cases w) as [(c4 & _ & Hflow) | [Hno Hflow]].
  { (* the interactive flow settled it *)
    rewrite H3', Hflow in H3. injection H3 as <-.
    rewrite priority4_skip. cbn [sources trace ret fst invoked_sources omap].
    rewrite app_nil_r.
    eapply (ranked_app 0 0 1 (rank k)); [lia | lia | lia | exact R1 |].
    eapply (ranked_app 1 1 2 (rank k)); [lia | lia | lia | exact R2 |].
    eapply (ranked_app 2 2 3 (rank k)); [lia | lia | lia | exact Hpre |].
    eapply ranked_weaken; [| |apply interactive_flow_ranked]; lia. }
  assert (Hk4 : rank k = 4).
  { destruct Hy; simpl in *; try lia. exfalso. eapply Hno. by eapply yields_flow. }
  rewrite Hk4, <- Hs3.
  eapply (ranked_app 0 0 1 4); [lia | lia | lia | exact R1 |].
  eapply (ranked_app 1 1 2 4); [lia | lia | lia | exact R2 |].
  eapply (ranked_app 2 3 4 4); [lia | lia | lia | apply priority3_ranked |].
  apply priority4_ranked.
Qed.

(** C1 (as amended): credential resolution touches the sources in the
    fixed order inline blob, service-account file, cached token (with its
    refresh), interactive flow, ambient default; and whenever source [k]
    yields a valid credential, which for the interactive flow includes
    writing its token file, no source after [k] is touched. *)
Theorem resolution_short_circuits w :
  in_order (invoked_sources (trace (resolve_credentials w))) /\
  forall k c, yields w k c -> valid c = true ->
    forall k', rank k < rank k' ->
      ~ In k' (invoked_sources (trace (resolve_credentials w))).
Proof.
  split.
  - apply (resolve_credentials_ranked w).
  - intros k c Hy Hvalid k' Hlt Hin.
    pose proof (ranked_below _ _ _ _ (sources_bounded w k c Hy Hvalid) Hin). lia.
Qed.

Lemma resolution_short_circuits_witness :
  ~ In InteractiveFlow (invoked_sources (trace (resolve_credentials Scenarios.cached_world))) /\
  ~ In AmbientDefault (invoked_sources (trace (resolve_credentials Scenarios.cached_world))).
Proof.
  split.
  - apply (proj2 (resolution_short_circuits Scenarios.cached_world)
             CachedToken Scenarios.fresh_user).
    + apply yields_token; reflexivity.
    + reflexivity.
    + simpl. lia.
  - apply (proj2 (resolution_short_circuits Scenarios.cached_world)
             CachedToken Scenarios.fresh_user).
    + apply yields_token; reflexivity.
    + reflexivity.
    + simpl. lia.
Defined.

(** C1 as stated fails: the interactive flow returns a valid credential,
    but its token cannot be written; the credential is dropped and the
    ambient default, a later source, is invoked and supplies the result. *)
Lemma flow_unpersisted_counterexample :
  run_local_server Scenarios.readonly_world (CREDENTIALS_PATH Scenarios.readonly_world)
    = inr Scenarios.other_user /\
  valid Scenarios.other_user = true /\
  rank InteractiveFlow < rank AmbientDefault /\
  invoked_sources (trace (resolve_credentials Scenarios.readonly_world)) =
    [InteractiveFlow; InteractiveFlow; AmbientDefault] /\
  In AmbientDefault (invoked_sources (trace (resolve_credentials Scenarios.readonly_world))) /\
  outcome (resolve_credentials Scenarios.readonly_world) = inr Scenarios.robot.
Proof.
  split_and!; try reflexivity.
  - simpl. lia.
  - vm_compute. tauto.
Qed.

(** *** Every effect of a computation satisfies [P] *)

Lemma emits_ret P {A} (a : A) : emits P (ret a).
Proof. constructor. Qed.

Lemma emits_raise P {A} (e : Exn) : emits P (@raise A e).
Proof. constructor. Qed.

Lemma emits_one (P : Event -> Prop) {A} ev (r : Exn + A) : P ev -> emits P ([ev], r).
Proof. intros H. by repeat constructor. Qed.

Lemma emits_bind P {A B} (m : M A) (f : A -> M B) :
  emits P m -> (forall a, emits P (f a)) -> emits P (bind m f).
Proof.
  unfold emits. intros Hm Hf. rewrite trace_bind. apply Forall_app. split; [done|].
  destruct (outcome m); [constructor | apply Hf].
Qed.

Lemma emits_try_except P {A} (m : M A) (h : Exn -> M A) :
  emits P m -> (forall e, emits P (h e)) -> emits P (try_except m h).
Proof.
  unfold emits. intros Hm Hh. rewrite trace_try_except. apply Forall_app. split; [done|].
  destruct (outcome m); [apply Hh | constructor].
Qed.

Lemma emits_impl (P Q : Event -> Prop) {A} (m : M A) :
  (forall ev, P ev -> Q ev) -> emits P m -> emits Q m.
Proof. intros H Hm. unfold emits in *. eapply Forall_impl; [exact Hm | exact H]. Qed.

Ltac emits_step :=
  match goal with
  | |- emits _ (bind _ _) => apply emits_bind; [|intros ?]
  | |- emits _ (try_except _ _) => apply emits_try_except; [|intros ?]
  | |- emits _ (ret _) => apply emits_ret
  | |- emits _ (raise _) => apply emits_raise
  | |- emits _ (log _ _) => apply emits_one
  | |- emits _ (perform _ _) => apply emits_one
  | |- emits _ (probe _ _) => apply emits_one
  | |- emits _ (refresh_call _ _) => rewrite refresh_call_raises; constructor
  | |- emits _ (match ?x with _ => _ end) => destruct x
  end.

Ltac emits_all := repeat emits_step; simpl; try done.

Lemma resolve_credentials_events w : emits resolution_event (resolve_credentials w).
Proof.
  unfold resolve_credentials, priority1, priority2, priority3, priority4,
    load_token, refresh_token_step, interactive_flow.
  emits_all.
Qed.

(** No run of credential resolution ever refreshes a token. *)
Lemma refresh_never_made w : refreshes (trace (resolve_credentials w)) = [].
Proof.
  pose proof (resolve_credentials_events w) as H. unfold emits in H.
  induction H as [|ev t Hev _ IH]; [done|].
  unfold refreshes in *. destruct ev; simpl in *; done.
Qed.

Lemma initialise_events w : emits startup_event (initialise w).
Proof.
  unfold initialise, build_services.
  emits_step; [emits_all|]. emits_step.
  - eapply emits_impl; [|apply resolve_credentials_events].
    intros ev. unfold startup_event. by destruct ev.
  - emits_all.
Qed.

Lemma teardown_not_startup : ~ startup_event teardown.
Proof. simpl. intros H. by apply H. Qed.

(** The teardown line is not logged before the [yield]. *)
Lemma initialise_no_teardown w : ~ In teardown (trace (initialise w)).
Proof.
  intros Hin. pose proof (initialise_events w) as H. unfold emits in H.
  rewrite Forall_forall in H. apply list_elem_of_In in Hin.
  exact (teardown_not_startup (H _ Hin)).
Qed.

End ResolutionFacts.

(** ** The lifespan *)

Section LifespanClaims.

Import Lifespan Scenarios.

(** The name the import on line 29 binds does resolve. *)
Example GoogleRequest_is_bound :
  lookup_name "GoogleRequest" = ret tt /\
  lookup_name "Request" = raise (NameError "Request").
Proof. split; reflexivity. Qed.

(** If initialisation fails, the context manager raises that error and
    has done nothing else. *)
Lemma lifespan_startup_failure w body e :
  outcome (initialise w) = inl e ->
  spreadsheet_lifespan w body = (trace (initialise w), inl e).
Proof. intros H. unfold spreadsheet_lifespan. by apply trace_bind_raise. Qed.

(** If initialisation succeeds, the body runs and the teardown follows it,
    whatever the body did. *)
Lemma lifespan_after_yield w body sd :
  outcome (initialise w) = inr sd ->
  spreadsheet_lifespan w body =
  (trace (initialise w) ++ [Yield] ++ trace (body (make_context w sd)) ++
     match outcome (body (make_context w sd)) with
     | inr _ => [Log INFO [Lit "Google Spreadsheet services initialized successfully"]]
     | inl _ => []
     end ++ [teardown],
   outcome (body (make_context w sd))).
Proof.
  intros H. unfold spreadsheet_lifespan. rewrite (bind_ok _ _ _ H). f_equal.
  - f_equal. unfold emit, log, emit.
    destruct (body (make_context w sd)) as [tb [e|[]]]; simpl.
    + reflexivity.
    + by rewrite <- app_assoc.
  - unfold emit, log, emit.
    destruct (body (make_context w sd)) as [tb [e|[]]]; reflexivity.
Qed.

(** C5 (as amended): once the context has been yielded, the teardown step
    runs last on every exit path, whether the body returns or raises, and
    the body's outcome is the context manager's; when initialisation
    fails, its error propagates and the teardown step does not run. *)
Theorem teardown_after_yield w body :
  (forall sd, outcome (initialise w) = inr sd ->
     last (trace (spreadsheet_lifespan w body)) = Some teardown /\
     outcome (spreadsheet_lifespan w body) = outcome (body (make_context w sd))) /\
  (forall e, outcome (initialise w) = inl e ->
     outcome (spreadsheet_lifespan w body) = inl e /\
     ~ In Yield (trace (spreadsheet_lifespan w body)) /\
     ~ In teardown (trace (spreadsheet_lifespan w body))).
Proof.
  split.
  - intros sd H. rewrite (lifespan_after_yield w body sd H).
    unfold trace at 1, outcome at 1. cbn [fst snd]. split; [|done].
    rewrite !app_assoc. apply last_snoc.
  - intros e H. rewrite (lifespan_startup_failure w body e H). simpl.
    split_and!; [done | | apply initialise_no_teardown].
    intros Hin. pose proof (initialise_events w) as Hev. unfold emits in Hev.
    rewrite Forall_forall in Hev. apply list_elem_of_In in Hin.
    exact (Hev _ Hin).
Qed.

Lemma teardown_after_yield_witness :
  (last (trace (spreadsheet_lifespan key_file_world serve_crash)) = Some teardown /\
   outcome (spreadsheet_lifespan key_file_world serve_crash) =
     inl (LibraryError "RuntimeError" "transport closed")) /\
  (outcome (spreadsheet_lifespan barren_world serve_ok) =
     inl (Exception_ "All authentication methods failed. Please configure credentials.") /\
   ~ In Yield (trace (spreadsheet_lifespan barren_world serve_ok)) /\
   ~ In teardown (trace (spreadsheet_lifespan barren_world serve_ok))).
Proof.
  split.
  - exact (proj1 (teardown_after_yield key_file_world serve_crash)
             (demo_service, demo_service) eq_refl).
  - exact (proj2 (teardown_after_yield barren_world serve_ok) _ eq_refl).
Defined.

(** C5 as stated fails: building the service handles raises, the context
    manager exits with that error, and the teardown line is never logged. *)
Lemma teardown_skipped_counterexample :
  outcome (spreadsheet_lifespan unbuildable_world serve_ok) =
    inl (LibraryError "UnknownApiNameOrVersion" "name: sheets  version: v4") /\
  In (Build "sheets" "v4" robot) (trace (spreadsheet_lifespan unbuildable_world serve_ok)) /\
  ~ In teardown (trace (spreadsheet_lifespan unbuildable_world serve_ok)).
Proof.
  split_and!.
  - reflexivity.
  - vm_compute. tauto.
  - vm_compute. intros H.
    repeat (destruct H as [H|H]; [discriminate H|]). exact H.
Qed.

(** When no source produces a credential, resolution raises before any
    handle is built and the body never runs. *)
Lemma no_credential_is_fatal w body :
  (forall k c, ~ yields w k c) ->
  outcome (resolve_credentials w) =
    inl (Exception_ "All authentication methods failed. Please configure credentials.") /\
  outcome (spreadsheet_lifespan w body) =
    inl (Exception_ "All authentication methods failed. Please configure credentials.") /\
  Forall resolution_event (trace (spreadsheet_lifespan w body)).
Proof.
  intros Hno.
  assert (Hres : outcome (resolve_credentials w) =
    inl (Exception_ "All authentication methods failed. Please configure credentials.")).
  { destruct (resolve_credentials_chain w) as (o1 & o2 & o3 & H1 & H2 & H3 & -> & _).
    destruct (priority1_cases w) as [(c & Hy & _) | [_ H1']]; [by destruct (Hno _ _ Hy)|].
    rewrite H1' in H1. injection H1 as <-.
    destruct (priority2_cases w) as [(c & Hy & _) | [_ H2']]; [by destruct (Hno _ _ Hy)|].
    rewrite H2' in H2. injection H2 as <-.
    destruct (priority3_cases w) as [(c & Hex & Hload & _) | (_ & H3' & _)].
    { destruct (Hno CachedToken c). by apply yields_token. }
    destruct (interactive_flow_cases w) as [(c & Hy & _) | [_ H4]];
      [by destruct (Hno _ _ Hy)|].
    rewrite H3', H4 in H3. injection H3 as <-.
    destruct (priority4_cases w) as [(c & Hy & _) | [_ H5]]; [by destruct (Hno _ _ Hy)|].
    exact H5. }
  assert (Hinit : initialise w =
    (Log INFO [Lit "Initializing Google Spreadsheet services..."]
       :: trace (resolve_credentials w),
     inl (Exception_ "All authentication methods failed. Please configure credentials."))).
  { unfold initialise, log, emit. rewrite bind_step.
    by rewrite (trace_bind_raise _ _ _ Hres). }
  split_and!; [exact Hres | |].
  - rewrite (lifespan_startup_failure w body _ (f_equal snd Hinit)). reflexivity.
  - rewrite (lifespan_startup_failure w body _ (f_equal snd Hinit)), Hinit. simpl.
    constructor; [discriminate | apply resolve_credentials_events].
Qed.

(** In [stale_world] the only credential any source produces is the
    cached token, and it is not valid. *)
Lemma stale_world_yields k c : yields stale_world k c -> k = CachedToken /\ c = stale_user.
Proof.
  intros Hy. inversion Hy as [? ? H1| ? ? ? H1| ? ? H1| ? ? ? ? ? ? ? H1| ? H1| ? ? H1];
    subst; try discriminate H1.
  - injection H1 as <-. done.
Qed.

(** C2, at the failing input: a cached token that is expired and has no
    refresh token is the only thing on disk, so no source produces a valid
    credential; resolution nevertheless returns that token, both handles
    are built from it, the context is yielded and the body runs. *)
Theorem stale_token_is_served :
  valid stale_user = false /\
  outcome (resolve_credentials stale_world) = inr stale_user /\
  invoked_sources (trace (resolve_credentials stale_world)) = [CachedToken] /\
  outcome (spreadsheet_lifespan stale_world serve_ok) = inr tt /\
  List.filter (fun ev => match ev with Build _ _ _ | Yield => true | _ => false end)
         (trace (spreadsheet_lifespan stale_world serve_ok)) =
    [Build "sheets" "v4" stale_user; Build "drive" "v3" stale_user; Yield].
Proof. split_and!; reflexivity. Qed.

(** C4, at the failing input: the cached token is expired and carries a
    refresh token that Google would honour; the refresh is never made
    ([Request] is unbound, the handler swallows the [NameError]), the token
    is discarded, and with no other source available start-up fails. *)
Theorem refreshable_token_is_discarded :
  load_authorized_user refreshable_world "token.json" = inr expired_user /\
  refresh refreshable_world expired_user = inr fresh_user /\
  refresh_token_step refreshable_world (Some expired_user) =
    ([Log ERROR [Lit "Error refreshing OAuth token: "; Err (NameError "Request")]],
     inr None) /\
  refreshes (trace (resolve_credentials refreshable_world)) = [] /\
  invoked_sources (trace (resolve_credentials refreshable_world)) =
    [CachedToken; InteractiveFlow; AmbientDefault] /\
  outcome (resolve_credentials refreshable_world) =
    inl (Exception_ "All authentication methods failed. Please configure credentials.").
Proof. split_and!; reflexivity. Qed.

End LifespanClaims.

(** ** More on the tools *)

Section ToolExtras.

Import Lifespan Tools Scenarios.

Lemma emits_lift P {A} (r : Exn + A) : emits P (lift r).
Proof. constructor. Qed.

Lemma emits_mapM P {A B} (f : A -> M B) (l : list A) :
  (forall a, emits P (f a)) -> emits P (mapM f l).
Proof.
  intros Hf. induction l as [|x l IH]; simpl.
  - apply emits_ret.
  - apply emits_bind; [apply Hf|]. intros y.
    apply emits_bind; [apply IH|]. intros ys. apply emits_ret.
Qed.

Ltac info_step :=
  match goal with
  | |- emits _ (bind _ _) => apply emits_bind; [|intros ?]
  | |- emits _ (ret _) => apply emits_ret
  | |- emits _ (lift _) => apply emits_lift
  | |- emits _ (log _ _) => apply emits_one; exact I
  | |- emits _ (mapM _ _) => apply emits_mapM; intros ?
  | |- emits _ (if _ then _ else _) => case_match
  | |- emits _ (_, _) => first [apply emits_one; exact I | constructor]
  end.

Ltac info_post := intros ?; cbv beta zeta; repeat info_step.

(** The reshaping of a remote answer logs no error record of its own. *)
Lemma run_tool_guarded_info ctx t svc call :
  request_of ctx t = Some (svc, call) ->
  exists pre post,
    Forall no_error_log pre /\
    (forall r, emits no_error_log (post r)) /\
    run_tool ctx t =
    bind (pre, inr tt) (fun _ => guarded ctx svc call post (operation t)).
Proof.
  intros Hreq. destruct t; simpl in Hreq; try discriminate; injection Hreq as <- <-;
    cbn [run_tool operation].
  - exists []. destruct include_grid_data.
    + eexists. split; [done|]. split; cycle 1.
      { rewrite bind_nil. unfold get_sheet_data, guarded. reflexivity. }
      info_post.
    + eexists. split; [done|]. split; cycle 1.
      { rewrite bind_nil. unfold get_sheet_data, guarded.
        rewrite bind_assoc. reflexivity. }
      info_post.
  - exists []. eexists. split; [done|]. split; cycle 1.
    { rewrite bind_nil. unfold update_cells, guarded. reflexivity. }
    info_post.
  - exists []. eexists. split; [done|]. split; cycle 1.
    { rewrite bind_nil. unfold create_spreadsheet, guarded. reflexivity. }
    info_post.
  - unfold list_spreadsheets.
    destruct (folder_id ctx) as [f|]; [destruct (truthy_str f)|].
    + eexists [_]. eexists. split; [|split]; cycle 2.
      { unfold guarded, log, emit.
        rewrite bind_assoc, !bind_step, bind_ret_l. reflexivity. }
      { by repeat constructor. }
      info_post.
    + eexists [_]. eexists. split; [|split]; cycle 2.
      { unfold guarded, log, emit.
        rewrite bind_assoc, !bind_step, bind_ret_l. reflexivity. }
      { by repeat constructor. }
      info_post.
    + eexists [_]. eexists. split; [|split]; cycle 2.
      { unfold guarded, log, emit.
        rewrite bind_assoc, !bind_step, bind_ret_l. reflexivity. }
      { by repeat constructor. }
      info_post.
  - exists []. eexists. split; [done|]. split; cycle 1.
    { rewrite bind_nil. unfold add_rows, guarded. reflexivity. }
    info_post.
  - exists []. eexists. split; [done|]. split; cycle 1.
    { rewrite bind_nil. unfold list_sheets, guarded. reflexivity. }
    info_post.
  - exists []. eexists. split; [done|]. split; cycle 1.
    { rewrite bind_nil. unfold create_sheet, guarded. reflexivity. }
    info_post.
Qed.

(** What a guarded call amounts to, by the outcome of its body. *)
Lemma guarded_outcome ctx svc call post msg :
  match outcome (r <- execute ctx svc call ;; post r) with
  | inl e =>
      guarded ctx svc call post msg =
      (trace (r <- execute ctx svc call ;; post r) ++ [Log ERROR [Lit msg; Err e]],
       inl e)
  | inr v =>
      guarded ctx svc call post msg =
      (trace (r <- execute ctx svc call ;; post r), inr v)
  end.
Proof.
  unfold guarded.
  destruct (r <- execute ctx svc call ;; post r) as [t [e|v]]; reflexivity.
Qed.

(** X1: every tool sends exactly one request, fixed by its arguments
    and the configured folder, whatever the remote answers (no retry, and
    no further request while the answer is reshaped); [health_check] sends
    none. *)
Theorem tool_sends_one_request ctx t :
  calls (trace (run_tool ctx t)) =
    match request_of ctx t with Some sc => [sc] | None => [] end /\
  length (calls (trace (run_tool ctx t))) <= 1.
Proof.
  pose proof (run_tool_calls ctx t) as H. split; [exact H|].
  rewrite H. destruct (request_of ctx t); simpl; lia.
Qed.

(** X2: whenever a tool raises, be it the remote call or the reshaping of
    its answer that failed, the last thing it did was to log an error
    record naming its operation and that exception; whenever it returns a
    value, it has logged no error record. *)
Theorem tool_failures_logged ctx t :
  (forall e, outcome (run_tool ctx t) = inl e ->
     last (trace (run_tool ctx t)) = Some (Log ERROR [Lit (operation t); Err e])) /\
  (forall v, outcome (run_tool ctx t) = inr v ->
     Forall no_error_log (trace (run_tool ctx t))).
Proof.
  destruct (request_of ctx t) as [[svc call]|] eqn:Hreq.
  - destruct (run_tool_guarded_info ctx t svc call Hreq)
      as (pre & post & Hpre & Hpost & ->).
    rewrite bind_step. cbn [trace outcome fst snd].
    pose proof (guarded_outcome ctx svc call post (operation t)) as Hg.
    assert (Hbody : Forall no_error_log (trace (r <- execute ctx svc call ;; post r))).
    { apply emits_bind; [by apply emits_one | exact Hpost]. }
    destruct (outcome (r <- execute ctx svc call ;; post r)) as [e0|v0];
      rewrite Hg; cbn [trace outcome fst snd]; split.
    + intros e He. injection He as <-. rewrite app_assoc. apply last_snoc.
    + intros v Hv. discriminate Hv.
    + intros e He. discriminate He.
    + intros v _. apply Forall_app. by split.
  - destruct t; try discriminate. split.
    + intros e He. discriminate He.
    + intros v _. constructor.
Qed.

Lemma tool_failures_logged_witness :
  last (trace (run_tool demo_ctx (ListSheets "doc"))) =
    Some (Log ERROR [Lit "Error listing sheets: "; Err (KeyError (JStr "sheets"))]) /\
  Forall no_error_log (trace (run_tool demo_ctx (AddRows "doc" "Sheet1" two_rows))).
Proof.
  split.
  - exact (proj1 (tool_failures_logged demo_ctx (ListSheets "doc")) _ eq_refl).
  - exact (proj2 (tool_failures_logged demo_ctx (AddRows "doc" "Sheet1" two_rows))
             _ eq_refl).
Defined.

(** A guarded call whose remote call and reshaping both succeed. *)
Lemma guarded_ok ctx svc call (post : dict -> M json) msg r t v :
  answer ctx svc call = inr r ->
  post r = (t, inr v) ->
  try_except (r <- execute ctx svc call ;; post r)
    (fun e => log ERROR [Lit msg; Err e] ;;; raise e) =
  (Execute svc call :: t, inr v).
Proof.
  intros Hans Hpost. unfold execute, perform. rewrite Hans, bind_step, Hpost.
  reflexivity.
Qed.

(** A guarded call whose reshaping fails. *)
Lemma guarded_post_fails ctx svc call (post : dict -> M json) msg r t e :
  answer ctx svc call = inr r ->
  post r = (t, inl e) ->
  try_except (r <- execute ctx svc call ;; post r)
    (fun e => log ERROR [Lit msg; Err e] ;;; raise e) =
  (Execute svc call :: t ++ [Log ERROR [Lit msg; Err e]], inl e).
Proof.
  intros Hans Hpost. unfold execute, perform. rewrite Hans, bind_step, Hpost.
  reflexivity.
Qed.

Lemma mapM_ret {A B} (f : A -> M B) (l : list A) (l' : list B) :
  Forall2 (fun x y => f x = ret y) l l' -> mapM f l = ret l'.
Proof.
  induction 1 as [|x y l l' Hx _ IH]; simpl; [done|].
  by rewrite Hx, bind_ret_l, IH, bind_ret_l.
Qed.

(** X3: [update_cells] always addresses ["<sheet>!<range>"], whatever
    the remote answers; unlike [get_sheet_data] it has no fallback for an
    empty range, which it sends as ["<sheet>!"] where [get_sheet_data]
    sends the bare sheet name. *)
Theorem update_cells_range ctx sid sheet range data :
  sent_ranges (trace (update_cells ctx sid sheet range data)) = [sheet +:+ "!" +:+ range] /\
  sent_ranges (trace (update_cells ctx sid sheet "" data)) = [sheet +:+ "!"] /\
  sent_ranges (trace (get_sheet_data ctx sid sheet (Some "") false)) = [sheet].
Proof.
  pose proof (fun r => run_tool_calls ctx (UpdateCells sid sheet r data)) as Hu.
  pose proof (run_tool_calls ctx (GetSheetData sid sheet (Some "") false)) as Hg.
  cbn [run_tool request_of] in Hu, Hg. unfold sent_ranges.
  rewrite !Hu, Hg. split_and!; reflexivity.
Qed.

(** X4: when the remote answer lists files that each carry an [id] and
    a [name], [list_spreadsheets] returns one [{id, title}] per file, in
    the remote order and with nothing but these two fields, after logging
    how many were found. *)
Theorem list_spreadsheets_result ctx call results items out :
  request_of ctx ListSpreadsheets = Some (Drive, call) ->
  answer ctx Drive call = inr results ->
  dict_lookup "files" results = Some (JList items) ->
  Forall2 (fun item o =>
             exists d i n,
               item = JDict d /\ dict_lookup "id" d = Some i /\
               dict_lookup "name" d = Some n /\
               o = JDict [("id", i); ("title", n)]) items out ->
  outcome (list_spreadsheets ctx) = inr (JList out) /\
  length out = length items /\
  last (trace (list_spreadsheets ctx)) =
    Some (Log INFO [Lit "Found "; Num (length items); Lit " spreadsheets"]).
Proof.
  intros Hreq Hans Hfiles Hitems.
  assert (Hrun : try_except
            (results <- execute ctx Drive call ;;
             n <- lift (len (dict_get results "files" (JList []))) ;;
             log INFO [Lit "Found "; Num n; Lit " spreadsheets"] ;;;
             items <- lift (iter (dict_get results "files" (JList []))) ;;
             out <- mapM (fun sheet =>
                            i <- lift (getitem sheet "id") ;;
                            t <- lift (getitem sheet "name") ;;
                            ret (JDict [("id", i); ("title", t)])) items ;;
             ret (JList out))
            (fun e => log ERROR [Lit "Error listing spreadsheets: "; Err e] ;;; raise e)
          = ([Execute Drive call;
              Log INFO [Lit "Found "; Num (length items); Lit " spreadsheets"]],
             inr (JList out))).
  { eapply guarded_ok; [exact Hans|]. cbv zeta. unfold dict_get. rewrite Hfiles.
    cbn [len iter]. unfold lift. rewrite bind_nil. unfold log, emit.
    rewrite bind_step, bind_nil.
    rewrite (mapM_ret _ items out).
    - reflexivity.
    - eapply Forall2_impl; [exact Hitems|].
      intros item o (d & i & n & -> & Hi & Hn & ->).
      cbn [getitem]. rewrite Hi, Hn. reflexivity. }
  split_and!.
  - unfold list_spreadsheets. simpl in Hreq.
    destruct (folder_id ctx) as [f|]; [destruct (truthy_str f)|];
      injection Hreq as <-; unfold log at 1, emit;
      rewrite bind_assoc, bind_step, bind_ret_l, Hrun; reflexivity.
  - symmetry. eapply Forall2_length. exact Hitems.
  - unfold list_spreadsheets. simpl in Hreq.
    destruct (folder_id ctx) as [f|]; [destruct (truthy_str f)|];
      injection Hreq as <-; unfold log at 1, emit;
      rewrite bind_assoc, bind_step, bind_ret_l, Hrun; reflexivity.
Qed.

Lemma list_spreadsheets_result_witness :
  outcome (list_spreadsheets listing_ctx) =
    inr (JList [JDict [("id", JStr "1AbC"); ("title", JStr "Budget")];
                JDict [("id", JStr "2DeF"); ("title", JStr "Plan")]]) /\
  length [JDict [("id", JStr "1AbC"); ("title", JStr "Budget")];
          JDict [("id", JStr "2DeF"); ("title", JStr "Plan")]] = 2 /\
  last (trace (list_spreadsheets listing_ctx)) =
    Some (Log INFO [Lit "Found "; Num 2; Lit " spreadsheets"]).
Proof.
  eapply (list_spreadsheets_result listing_ctx _ _
            [JDict [("id", JStr "1AbC"); ("name", JStr "Budget")];
             JDict [("name", JStr "Plan"); ("id", JStr "2DeF");
                    ("kind", JStr "drive#file")]]).
  - reflexivity.
  - reflexivity.
  - reflexivity.
  - repeat constructor; do 3 eexists; repeat split; reflexivity.
Defined.

(** X5: a remote answer without a [files] field is an empty listing, not
    an error. *)
Theorem list_spreadsheets_no_files ctx call results :
  request_of ctx ListSpreadsheets = Some (Drive, call) ->
  answer ctx Drive call = inr results ->
  dict_lookup "files" results = None ->
  outcome (list_spreadsheets ctx) = inr (JList []) /\
  last (trace (list_spreadsheets ctx)) =
    Some (Log INFO [Lit "Found "; Num 0; Lit " spreadsheets"]).
Proof.
  intros Hreq Hans Hfiles.
  assert (Hrun : try_except
            (results <- execute ctx Drive call ;;
             n <- lift (len (dict_get results "files" (JList []))) ;;
             log INFO [Lit "Found "; Num n; Lit " spreadsheets"] ;;;
             items <- lift (iter (dict_get results "files" (JList []))) ;;
             out <- mapM (fun sheet =>
                            i <- lift (getitem sheet "id") ;;
                            t <- lift (getitem sheet "name") ;;
                            ret (JDict [("id", i); ("title", t)])) items ;;
             ret (JList out))
            (fun e => log ERROR [Lit "Error listing spreadsheets: "; Err e] ;;; raise e)
          = ([Execute Drive call; Log INFO [Lit "Found "; Num 0; Lit " spreadsheets"]],
             inr (JList []))).
  { eapply guarded_ok; [exact Hans|]. unfold dict_get. rewrite Hfiles. reflexivity. }
  simpl in Hreq.
  split; unfold list_spreadsheets;
    (destruct (folder_id ctx) as [f|]; [destruct (truthy_str f)|];
     injection Hreq as <-; unfold log at 1, emit;
     rewrite bind_assoc, bind_step, bind_ret_l, Hrun; reflexivity).
Qed.

Lemma list_spreadsheets_no_files_witness :
  outcome (list_spreadsheets demo_ctx) = inr (JList []) /\
  last (trace (list_spreadsheets demo_ctx)) =
    Some (Log INFO [Lit "Found "; Num 0; Lit " spreadsheets"]).
Proof.
  eapply (list_spreadsheets_no_files demo_ctx); reflexivity.
Defined.

Lemma mapM_raise {A B} (f : A -> M B) (l1 : list A) (l1' : list B) x l2 e :
  Forall2 (fun x y => f x = ret y) l1 l1' ->
  f x = raise e ->
  mapM f (l1 ++ x :: l2) = raise e.
Proof.
  intros H Hx. induction H as [|a b l l' Ha _ IH]; simpl.
  - by rewrite Hx.
  - by rewrite Ha, bind_ret_l, IH.
Qed.

(** X6: one listed file without an [id] makes the whole listing fail with
    [KeyError('id')], however many well-formed files precede it; the count
    has been logged by then. *)
Theorem list_spreadsheets_malformed ctx call results good out d rest :
  request_of ctx ListSpreadsheets = Some (Drive, call) ->
  answer ctx Drive call = inr results ->
  dict_lookup "files" results = Some (JList (good ++ JDict d :: rest)) ->
  Forall2 (fun item o =>
             exists d i n,
               item = JDict d /\ dict_lookup "id" d = Some i /\
               dict_lookup "name" d = Some n /\
               o = JDict [("id", i); ("title", n)]) good out ->
  dict_lookup "id" d = None ->
  outcome (list_spreadsheets ctx) = inl (KeyError (JStr "id")) /\
  In (Log INFO [Lit "Found "; Num (length (good ++ JDict d :: rest)); Lit " spreadsheets"])
     (trace (list_spreadsheets ctx)).
Proof.
  intros Hreq Hans Hfiles Hgood Hid.
  assert (Hrun : try_except
            (results <- execute ctx Drive call ;;
             n <- lift (len (dict_get results "files" (JList []))) ;;
             log INFO [Lit "Found "; Num n; Lit " spreadsheets"] ;;;
             items <- lift (iter (dict_get results "files" (JList []))) ;;
             out <- mapM (fun sheet =>
                            i <- lift (getitem sheet "id") ;;
                            t <- lift (getitem sheet "name") ;;
                            ret (JDict [("id", i); ("title", t)])) items ;;
             ret (JList out))
            (fun e => log ERROR [Lit "Error listing spreadsheets: "; Err e] ;;; raise e)
          = (Execute Drive call ::
               [Log INFO [Lit "Found "; Num (length (good ++ JDict d :: rest));
                          Lit " spreadsheets"]] ++
               [Log ERROR [Lit "Error listing spreadsheets: "; Err (KeyError (JStr "id"))]],
             inl (KeyError (JStr "id")))).
  { eapply guarded_post_fails; [exact Hans|]. unfold dict_get. rewrite Hfiles.
    cbn [len iter]. unfold lift. rewrite bind_nil. unfold log, emit.
    rewrite bind_step, bind_nil.
    rewrite (mapM_raise _ good out (JDict d) rest (KeyError (JStr "id"))).
    - reflexivity.
    - eapply Forall2_impl; [exact Hgood|].
      intros item o (d' & i & n & -> & Hi & Hn & ->).
      cbn [getitem]. rewrite Hi, Hn. reflexivity.
    - cbn [getitem]. rewrite Hid. reflexivity. }
  simpl in Hreq.
  split; unfold list_spreadsheets;
    (destruct (folder_id ctx) as [f|]; [destruct (truthy_str f)|];
     injection Hreq as <-; unfold log at 1, emit;
     rewrite bind_assoc, bind_step, bind_ret_l, Hrun;
     first [reflexivity | simpl; tauto]).
Qed.

Lemma list_spreadsheets_malformed_witness :
  outcome (list_spreadsheets
             {| sheets_service := demo_sheets;
                drive_service := fun _ =>
                  inr [("files",
                        JList ([JDict [("id", JStr "1AbC"); ("name", JStr "Budget")]] ++
                               JDict [("name", JStr "Orphan")] :: []))];
                folder_id := None |}) = inl (KeyError (JStr "id")) /\
  In (Log INFO [Lit "Found ";
                Num (length ([JDict [("id", JStr "1AbC"); ("name", JStr "Budget")]] ++
                             JDict [("name", JStr "Orphan")] :: []));
                Lit " spreadsheets"])
     (trace (list_spreadsheets
               {| sheets_service := demo_sheets;
                  drive_service := fun _ =>
                    inr [("files",
                          JList ([JDict [("id", JStr "1AbC"); ("name", JStr "Budget")]] ++
                                 JDict [("name", JStr "Orphan")] :: []))];
                  folder_id := None |})).
Proof.
  eapply list_spreadsheets_malformed.
  - reflexivity.
  - reflexivity.
  - reflexivity.
  - repeat constructor; do 3 eexists; repeat split; reflexivity.
  - reflexivity.
Defined.

(** X7: when the remote document lists tabs that each carry
    [properties.title], [list_sheets] returns the titles in document order
    and logs their number. *)
Theorem list_sheets_titles ctx sid spreadsheet items titles :
  answer ctx Sheets (SpreadsheetsGet sid None None) = inr spreadsheet ->
  dict_lookup "sheets" spreadsheet = Some (JList items) ->
  Forall2 (fun item title =>
             exists d p,
               item = JDict d /\ dict_lookup "properties" d = Some (JDict p) /\
               dict_lookup "title" p = Some title) items titles ->
  list_sheets ctx sid =
    ([Execute Sheets (SpreadsheetsGet sid None None);
      Log INFO [Lit "Found "; Num (length items); Lit " sheets in spreadsheet "; Str sid]],
     inr (JList titles)).
Proof.
  intros Hans Hsheets Hitems. unfold list_sheets.
  eapply guarded_ok; [exact Hans|].
  cbn [getitem]. rewrite Hsheets. unfold lift. rewrite bind_nil.
  cbn [iter]. rewrite bind_nil.
  rewrite (mapM_ret _ items titles).
  - rewrite bind_ret_l. rewrite <- (Forall2_length _ _ _ Hitems). reflexivity.
  - eapply Forall2_impl; [exact Hitems|].
    intros item title (d & p & -> & Hp & Ht).
    cbn [getitem]. rewrite Hp. rewrite bind_nil. cbn [getitem]. by rewrite Ht.
Qed.

Lemma list_sheets_titles_witness :
  list_sheets listing_ctx "doc" =
    ([Execute Sheets (SpreadsheetsGet "doc" None None);
      Log INFO [Lit "Found "; Num 2; Lit " sheets in spreadsheet "; Str "doc"]],
     inr (JList [JStr "Sheet1"; JStr "Totals"])).
Proof.
  eapply (list_sheets_titles listing_ctx "doc" _
            [JDict [("properties",
                     JDict [("sheetId", JInt 0); ("title", JStr "Sheet1")])];
             JDict [("properties",
                     JDict [("sheetId", JInt 7); ("title", JStr "Totals")])]]).
  - reflexivity.
  - reflexivity.
  - repeat constructor; do 2 eexists; repeat split; reflexivity.
Defined.

(** X8: a remote answer without a [sheets] field makes [list_sheets]
    raise [KeyError('sheets')], logged as an error; nothing is returned. *)
Theorem list_sheets_missing ctx sid spreadsheet :
  answer ctx Sheets (SpreadsheetsGet sid None None) = inr spreadsheet ->
  dict_lookup "sheets" spreadsheet = None ->
  list_sheets ctx sid =
    ([Execute Sheets (SpreadsheetsGet sid None None);
      Log ERROR [Lit "Error listing sheets: "; Err (KeyError (JStr "sheets"))]],
     inl (KeyError (JStr "sheets"))).
Proof.
  intros Hans Hsheets. unfold list_sheets.
  eapply (guarded_post_fails _ _ _ _ _ _ []); [exact Hans|].
  cbn [getitem]. rewrite Hsheets. reflexivity.
Qed.

Lemma list_sheets_missing_witness :
  list_sheets demo_ctx "doc" =
    ([Execute Sheets (SpreadsheetsGet "doc" None None);
      Log ERROR [Lit "Error listing sheets: "; Err (KeyError (JStr "sheets"))]],
     inl (KeyError (JStr "sheets"))).
Proof.
  exact (list_sheets_missing demo_ctx "doc" [] eq_refl eq_refl).
Defined.

(** X9: [create_sheet] sends one [addSheet] request carrying the title,
    and from a well-formed reply returns the new tab's [sheetId] and
    [title] as the remote reports them, its [index] ([None] when the reply
    has none) and the spreadsheet id it was called with. *)
Theorem create_sheet_result ctx sid title result reply more added props new_id new_title :
  answer ctx Sheets
    (BatchUpdate sid
       [("requests",
         JList [JDict [("addSheet",
                        JDict [("properties", JDict [("title", JStr title)])])]])])
    = inr result ->
  dict_lookup "replies" result = Some (JList (JDict reply :: more)) ->
  dict_lookup "addSheet" reply = Some (JDict added) ->
  dict_lookup "properties" added = Some (JDict props) ->
  dict_lookup "sheetId" props = Some new_id ->
  dict_lookup "title" props = Some new_title ->
  create_sheet ctx sid title =
    ([Execute Sheets
        (BatchUpdate sid
           [("requests",
             JList [JDict [("addSheet",
                            JDict [("properties", JDict [("title", JStr title)])])]])]);
      Log INFO [Lit "Created new sheet '"; Str title; Lit "' in spreadsheet "; Str sid]],
     inr (JDict [("sheetId", new_id); ("title", new_title);
                 ("index", match dict_lookup "index" props with
                           | Some i => i
                           | None => JNull
                           end);
                 ("spreadsheetId", JStr sid)])).
Proof.
  intros Hans Hreplies Hadd Hprops Hid Htitle. unfold create_sheet.
  eapply guarded_ok; [exact Hans|].
  cbn [getitem]. rewrite Hreplies. unfold lift. rewrite bind_nil.
  cbn [getitem0]. rewrite bind_nil.
  cbn [getitem]. rewrite Hadd, bind_nil.
  cbn [getitem]. rewrite Hprops, bind_nil.
  unfold log, emit. rewrite bind_step.
  cbn [getitem get_method]. rewrite Hid, Htitle, !bind_nil.
  reflexivity.
Qed.

Lemma create_sheet_result_witness :
  create_sheet listing_ctx "doc" "Q3" =
    ([Execute Sheets
        (BatchUpdate "doc"
           [("requests",
             JList [JDict [("addSheet",
                            JDict [("properties", JDict [("title", JStr "Q3")])])]])]);
      Log INFO [Lit "Created new sheet '"; Str "Q3"; Lit "' in spreadsheet "; Str "doc"]],
     inr (JDict [("sheetId", JInt 12); ("title", JStr "Q3");
                 ("index", JInt 2); ("spreadsheetId", JStr "doc")])).
Proof.
  exact (create_sheet_result listing_ctx "doc" "Q3" _ _ _ _ _ _ _
           eq_refl eq_refl eq_refl eq_refl eq_refl eq_refl).
Defined.

(** X10: a reply whose [replies] list is empty makes [create_sheet] raise
    [IndexError], logged as an error, although the remote call itself
    succeeded. *)
Theorem create_sheet_no_reply ctx sid title result :
  answer ctx Sheets
    (BatchUpdate sid
       [("requests",
         JList [JDict [("addSheet",
                        JDict [("properties", JDict [("title", JStr title)])])]])])
    = inr result ->
  dict_lookup "replies" result = Some (JList []) ->
  outcome (create_sheet ctx sid title) = inl (IndexError "list index out of range") /\
  calls (trace (create_sheet ctx sid title)) =
    [(Sheets,
      BatchUpdate sid
        [("requests",
          JList [JDict [("addSheet",
                         JDict [("properties", JDict [("title", JStr title)])])]])])] /\
  last (trace (create_sheet ctx sid title)) =
    Some (Log ERROR [Lit "Error creating sheet: ";
                     Err (IndexError "list index out of range")]).
Proof.
  intros Hans Hreplies.
  assert (Hrun : create_sheet ctx sid title =
     ([Execute Sheets
         (BatchUpdate sid
            [("requests",
              JList [JDict [("addSheet",
                             JDict [("properties", JDict [("title", JStr title)])])]])]);
       Log ERROR [Lit "Error creating sheet: ";
                  Err (IndexError "list index out of range")]],
      inl (IndexError "list index out of range"))).
  { unfold create_sheet.
    eapply (guarded_post_fails _ _ _ _ _ _ []); [exact Hans|].
    cbn [getitem]. rewrite Hreplies. reflexivity. }
  rewrite Hrun. split_and!; reflexivity.
Qed.

Lemma create_sheet_no_reply_witness :
  outcome (create_sheet
             {| sheets_service := fun _ => inr [("replies", JList [])];
                drive_service := failing_service; folder_id := None |}
             "doc" "Q3") = inl (IndexError "list index out of range").
Proof.
  exact (proj1 (create_sheet_no_reply
                  {| sheets_service := fun _ => inr [("replies", JList [])];
                     drive_service := failing_service; folder_id := None |}
                  "doc" "Q3" _ eq_refl eq_refl)).
Defined.

(** X11: [create_spreadsheet] succeeds even when the remote answer names
    neither an id nor a name: the returned [spreadsheetId] is then [None]
    and the returned [title] is the title asked for. *)
Theorem create_spreadsheet_sparse_answer ctx title spreadsheet :
  answer ctx Drive (FilesCreate true (file_body (folder_id ctx) title) "id, name, parents")
    = inr spreadsheet ->
  dict_lookup "id" spreadsheet = None ->
  dict_lookup "name" spreadsheet = None ->
  dict_lookup "parents" spreadsheet = None ->
  create_spreadsheet ctx title =
    ([Execute Drive
        (FilesCreate true (file_body (folder_id ctx) title) "id, name, parents");
      Log INFO [Lit "Created spreadsheet '"; Str title; Lit "' with ID: "; Val JNull]],
     inr (JDict [("spreadsheetId", JNull); ("title", JStr title);
                 ("folder", JStr "root")])).
Proof.
  intros Hans Hid Hname Hparents. unfold create_spreadsheet.
  eapply guarded_ok; [exact Hans|].
  unfold dict_get. rewrite Hid, Hname, Hparents. reflexivity.
Qed.

Lemma create_spreadsheet_sparse_answer_witness :
  create_spreadsheet
    {| sheets_service := demo_sheets; drive_service := fun _ => inr [];
       folder_id := None |} "Budget" =
    ([Execute Drive
        (FilesCreate true (file_body None "Budget") "id, name, parents");
      Log INFO [Lit "Created spreadsheet '"; Str "Budget"; Lit "' with ID: "; Val JNull]],
     inr (JDict [("spreadsheetId", JNull); ("title", JStr "Budget");
                 ("folder", JStr "root")])).
Proof.
  exact (create_spreadsheet_sparse_answer
           {| sheets_service := demo_sheets; drive_service := fun _ => inr [];
              folder_id := None |} "Budget" [] eq_refl eq_refl eq_refl eq_refl).
Defined.

End ToolExtras.

(** ** More on credential resolution and start-up *)

Section LifespanExtras.

Import Lifespan Tools Scenarios.

Lemma yields_cached_valid w c :
  yields w CachedToken c -> valid c = true ->
  path_exists w (TOKEN_PATH w) = true /\ load_authorized_user w (TOKEN_PATH w) = inr c.
Proof.
  intros Hy Hvalid.
  inversion Hy; subst.
  - done.
  - match goal with H : outcome (refresh_call _ _) = inr _ |- _ => discriminate H end.
Qed.

(** X12: the credential resolution returns is always one that some source
    produced: the decoded blob, the key file, the cached token as loaded,
    the interactive flow's (its token written), or the ambient default. *)
Theorem resolved_credential_was_yielded w c :
  outcome (resolve_credentials w) = inr c -> exists k, yields w k c.
Proof.
  intros Hout.
  destruct (resolve_credentials_chain w) as (o1 & o2 & o3 & H1 & H2 & H3 & H4 & _).
  rewrite H4 in Hout.
  destruct o3 as [c3|]; cycle 1.
  { destruct (priority4_cases w) as [(c4 & Hy & H) | [_ H]]; rewrite H in Hout.
    - injection Hout as <-. eauto.
    - discriminate Hout. }
  rewrite priority4_skip in Hout. injection Hout as <-.
  destruct o2 as [c2|]; cycle 1.
  { destruct (priority3_cases w) as [(c' & Hex & Hload & _ & H & _) | (_ & H & _)];
      rewrite H in H3.
    - injection H3 as <-. exists CachedToken. by apply yields_token.
    - destruct (interactive_flow_cases w) as [(c' & Hy & H') | [_ H']];
        rewrite H' in H3; [|discriminate H3].
      injection H3 as <-. eauto. }
  rewrite priority3_skip in H3. injection H3 as <-.
  destruct o1 as [c1|]; cycle 1.
  { destruct (priority2_cases w) as [(c' & Hy & H) | [_ H]]; rewrite H in H2;
      [|discriminate H2].
    injection H2 as <-. eauto. }
  rewrite (proj1 (priority2_skip w c1)) in H2. injection H2 as <-.
  destruct (priority1_cases w) as [(c' & Hy & H) | [_ H]]; rewrite H in H1;
    [|discriminate H1].
  injection H1 as <-. eauto.
Qed.

Lemma resolved_credential_was_yielded_witness :
  exists k, yields cached_world k fresh_user.
Proof.
  exact (resolved_credential_was_yielded cached_world fresh_user eq_refl).
Defined.

(** X13: the first source, in priority order, that produces a credential
    decides: if source [k] yields a valid credential and no source before
    it yields anything, that credential is the one resolution returns. *)
Theorem first_yield_wins w k c :
  yields w k c -> valid c = true ->
  (forall k' c', rank k' < rank k -> ~ yields w k' c') ->
  outcome (resolve_credentials w) = inr c.
Proof.
  intros Hy Hvalid Hfirst.
  destruct (resolve_credentials_chain w) as (o1 & o2 & o3 & H1 & H2 & H3 & -> & _).
  destruct (priority1_cases w) as [(c1 & Hy1 & H) | [Hno1 H]]; rewrite H in H1;
    injection H1 as <-.
  { rewrite (proj1 (priority2_skip w c1)) in H2. injection H2 as <-.
    rewrite priority3_skip in H3. injection H3 as <-. rewrite priority4_skip.
    destruct k; try (exfalso; apply (Hfirst InlineBlob c1); [simpl; lia | exact Hy1]).
    inversion Hy; inversion Hy1; subst. simpl. congruence. }
  destruct (priority2_cases w) as [(c2 & Hy2 & Hp2) | [Hno2 Hp2]]; rewrite Hp2 in H2;
    injection H2 as <-.
  { rewrite priority3_skip in H3. injection H3 as <-. rewrite priority4_skip.
    destruct k; try (exfalso; apply (Hfirst ServiceAccountFile c2); [simpl; lia | exact Hy2]).
    - exfalso. exact (Hno1 _ Hy).
    - inversion Hy; inversion Hy2; subst. simpl. congruence. }
  destruct (priority3_cases w)
    as [(c3 & Hex & Hload & _ & Hp3 & _) | (Htok & Hp3 & _)]; rewrite Hp3 in H3.
  { injection H3 as <-. rewrite priority4_skip.
    assert (Hy3 : yields w CachedToken c3) by by apply yields_token.
    destruct k; try (exfalso; apply (Hfirst CachedToken c3); [simpl; lia | exact Hy3]).
    - exfalso. exact (Hno1 _ Hy).
    - exfalso. exact (Hno2 _ Hy).
    - destruct (yields_cached_valid w c Hy Hvalid) as [_ Hload']. simpl. congruence. }
  assert (Hno3 : forall c', yields w CachedToken c' -> rank k <= 2).
  { intros c' Hy'. destruct (Nat.le_gt_cases (rank k) 2) as [|Hgt]; [done|].
    exfalso. apply (Hfirst CachedToken c'); [simpl; lia | exact Hy']. }
  assert (Hk : k = InteractiveFlow \/ k = AmbientDefault).
  { destruct k; auto; exfalso.
    - exact (Hno1 _ Hy).
    - exact (Hno2 _ Hy).
    - destruct (yields_cached_valid w c Hy Hvalid) as [_ Hload'].
      destruct Htok as [Hno | (c' & _ & Hload'' & Hinvalid & _)].
      + exact (Hno _ Hy).
      + congruence. }
  destruct (interactive_flow_cases w) as [(c4 & Hy4 & H') | [Hno4 H']]; rewrite H' in H3;
    injection H3 as <-.
  { rewrite priority4_skip. destruct Hk as [-> | ->].
    - inversion Hy; inversion Hy4; subst. simpl. congruence.
    - exfalso. apply (Hfirst InteractiveFlow c4); [simpl; lia | exact Hy4]. }
  destruct Hk as [-> | ->]; [exfalso; exact (Hno4 _ Hy)|].
  destruct (priority4_cases w) as [(c5 & Hy5 & H5) | [Hno5 _]].
  - rewrite H5. inversion Hy; inversion Hy5; subst. congruence.
  - exfalso. exact (Hno5 _ Hy).
Qed.

Lemma first_yield_wins_witness :
  outcome (resolve_credentials cached_world) = inr fresh_user.
Proof.
  apply (first_yield_wins cached_world CachedToken fresh_user).
  - apply yields_token; reflexivity.
  - reflexivity.
  - intros k' c' Hlt Hy. inversion Hy; subst; simpl in Hlt; try lia; discriminate.
Defined.

(** X14: the failure of a single source never escapes: the only exception
    credential resolution can raise is the one of line 148. *)
Theorem resolution_only_fatal_error w e :
  outcome (resolve_credentials w) = inl e ->
  e = Exception_ "All authentication methods failed. Please configure credentials.".
Proof.
  intros Hout.
  destruct (resolve_credentials_chain w) as (o1 & o2 & o3 & _ & _ & _ & H4 & _).
  rewrite H4 in Hout. destruct o3 as [c3|]; [discriminate Hout|].
  destruct (priority4_cases w) as [(c4 & _ & H) | [_ H]]; rewrite H in Hout.
  - discriminate Hout.
  - by injection Hout as <-.
Qed.

Lemma resolution_only_fatal_error_witness :
  Exception_ "All authentication methods failed. Please configure credentials." =
  Exception_ "All authentication methods failed. Please configure credentials.".
Proof.
  exact (resolution_only_fatal_error barren_world _ eq_refl).
Defined.

(** X15: once a credential is resolved, both handles are built from that
    same credential, sheets v4 first and drive v3 second, and start-up
    yields them; nothing else happens between resolution and the yield. *)
Theorem handles_share_credential w c s d :
  outcome (resolve_credentials w) = inr c ->
  build w "sheets" "v4" c = inr s ->
  build w "drive" "v3" c = inr d ->
  initialise w =
    (Log INFO [Lit "Initializing Google Spreadsheet services..."]
       :: trace (resolve_credentials w) ++
          [Build "sheets" "v4" c; Build "drive" "v3" c;
           Log INFO [Lit "Successfully built Google API services"]],
     inr (s, d)).
Proof.
  intros Hc Hs Hd. unfold initialise, log at 1, emit.
  rewrite bind_step, (bind_ok _ _ _ Hc).
  unfold build_services, perform. rewrite Hs, Hd. reflexivity.
Qed.

Lemma handles_share_credential_witness :
  initialise key_file_world =
    (Log INFO [Lit "Initializing Google Spreadsheet services..."]
       :: trace (resolve_credentials key_file_world) ++
          [Build "sheets" "v4" robot; Build "drive" "v3" robot;
           Log INFO [Lit "Successfully built Google API services"]],
     inr (demo_service, demo_service)).
Proof.
  exact (handles_share_credential key_file_world robot demo_service demo_service
           eq_refl eq_refl eq_refl).
Defined.

(** X16: when a handle cannot be built, start-up logs the error and
    raises that same exception; if it is the sheets handle that fails, the
    drive handle is never attempted. *)
Theorem build_failure_reraised w c e :
  outcome (resolve_credentials w) = inr c ->
  (build w "sheets" "v4" c = inl e ->
   initialise w =
     (Log INFO [Lit "Initializing Google Spreadsheet services..."]
        :: trace (resolve_credentials w) ++
           [Build "sheets" "v4" c;
            Log ERROR [Lit "Error building Google API services: "; Err e]],
      inl e)) /\
  (forall s, build w "sheets" "v4" c = inr s ->
   build w "drive" "v3" c = inl e ->
   initialise w =
     (Log INFO [Lit "Initializing Google Spreadsheet services..."]
        :: trace (resolve_credentials w) ++
           [Build "sheets" "v4" c; Build "drive" "v3" c;
            Log ERROR [Lit "Error building Google API services: "; Err e]],
      inl e)).
Proof.
  intros Hc. split.
  - intros Hs. unfold initialise, log at 1, emit.
    rewrite bind_step, (bind_ok _ _ _ Hc).
    unfold build_services, perform. rewrite Hs. reflexivity.
  - intros s Hs Hd. unfold initialise, log at 1, emit.
    rewrite bind_step, (bind_ok _ _ _ Hc).
    unfold build_services, perform. rewrite Hs, Hd. reflexivity.
Qed.

Lemma build_failure_reraised_witness :
  initialise unbuildable_world =
    (Log INFO [Lit "Initializing Google Spreadsheet services..."]
       :: trace (resolve_credentials unbuildable_world) ++
          [Build "sheets" "v4" robot;
           Log ERROR [Lit "Error building Google API services: ";
                      Err (LibraryError "UnknownApiNameOrVersion"
                             "name: sheets  version: v4")]],
     inl (LibraryError "UnknownApiNameOrVersion" "name: sheets  version: v4")).
Proof.
  exact (proj1 (build_failure_reraised unbuildable_world robot _ eq_refl) eq_refl).
Defined.

(** X17: a cached token that is not valid and cannot be refreshed (it is
    not expired, or has no refresh token) is kept as it is when neither
    service-account source yields: it is the credential resolution
    returns, and neither the interactive flow nor the ambient default is
    tried. *)
Theorem unrefreshable_token_kept w c :
  (forall c', ~ yields w InlineBlob c') ->
  (forall c', ~ yields w ServiceAccountFile c') ->
  path_exists w (TOKEN_PATH w) = true ->
  load_authorized_user w (TOKEN_PATH w) = inr c ->
  valid c = false ->
  expired c && truthy_opt_str (refresh_token c) = false ->
  outcome (resolve_credentials w) = inr c /\
  ~ In InteractiveFlow (invoked_sources (trace (resolve_credentials w))) /\
  ~ In AmbientDefault (invoked_sources (trace (resolve_credentials w))).
Proof.
  intros Hno1 Hno2 Hex Hload Hinvalid Hunref.
  destruct (resolve_credentials_chain w) as (o1 & o2 & o3 & H1 & H2 & H3 & H4 & Hs).
  destruct (priority1_cases w) as [(c1 & Hy1 & _) | [_ Hp1]]; [by destruct (Hno1 _ Hy1)|].
  rewrite Hp1 in H1. injection H1 as <-.
  destruct (priority2_cases w) as [(c2 & Hy2 & _) | [_ Hp2]]; [by destruct (Hno2 _ Hy2)|].
  rewrite Hp2 in H2. injection H2 as <-.
  destruct (priority3_cases w)
    as [(c3 & _ & Hload3 & _ & Hp3 & Hs3) | (Htok & _)].
  - rewrite Hp3 in H3. injection H3 as <-.
    assert (c3 = c) as -> by congruence.
    rewrite priority4_skip in H4, Hs.
    assert (Hr : ranked 0 2 (sources (resolve_credentials w))).
    { rewrite Hs, Hs3. cbn [sources trace ret fst invoked_sources omap].
      rewrite app_nil_r.
      eapply (ranked_app 0 0 1 2); [lia | lia | lia | apply priority1_ranked |].
      eapply (ranked_app 1 1 2 2); [lia | lia | lia | apply priority2_ranked |].
      apply ranked_one. simpl. lia. }
    split_and!; [exact H4 | |].
    + intros Hin. pose proof (ranked_below _ _ _ _ Hr Hin) as Hle. simpl in Hle. lia.
    + intros Hin. pose proof (ranked_below _ _ _ _ Hr Hin) as Hle. simpl in Hle. lia.
  - exfalso. destruct Htok as [Hno | (c' & _ & Hload' & _ & He & Hr)].
    + apply (Hno c). by apply yields_token.
    + assert (c' = c) as -> by congruence. rewrite He, Hr in Hunref. discriminate.
Qed.

Lemma unrefreshable_token_kept_witness :
  outcome (resolve_credentials stale_world) = inr stale_user.
Proof.
  apply (unrefreshable_token_kept stale_world stale_user).
  - intros c' Hy. inversion Hy; discriminate.
  - intros c' Hy. inversion Hy; discriminate.
  - reflexivity.
  - reflexivity.
  - reflexivity.
  - reflexivity.
Defined.

(** X18: start-up never refreshes a token: whatever the world, no
    [creds.refresh] is performed before the context is yielded. *)
Theorem no_refresh_at_startup w : refreshes (trace (initialise w)) = [].
Proof.
  pose proof (initialise_events w) as H. unfold emits in H.
  induction H as [|ev t Hev _ IH]; [done|].
  unfold refreshes in *. destruct ev; simpl in *; done.
Qed.

(** X19: the folder of [DRIVE_FOLDER_ID] reaches the tools through the
    yielded context: when it is set and not empty, [create_spreadsheet]
    asks for that one parent and [list_spreadsheets] restricts its query to
    it; when it is unset or empty, the create request carries no parents
    and the query is the bare type filter. *)
Theorem configured_folder_reaches_tools w sd title :
  calls (trace (create_spreadsheet (make_context w sd) title)) =
    [(Drive,
      FilesCreate true
        (if truthy_str (DRIVE_FOLDER_ID w) then
           [("name", JStr title);
            ("mimeType", JStr "application/vnd.google-apps.spreadsheet");
            ("parents", JList [JStr (DRIVE_FOLDER_ID w)])]
         else
           [("name", JStr title);
            ("mimeType", JStr "application/vnd.google-apps.spreadsheet")])
        "id, name, parents")] /\
  calls (trace (list_spreadsheets (make_context w sd))) =
    [(Drive,
      FilesList
        (if truthy_str (DRIVE_FOLDER_ID w) then
           "mimeType='application/vnd.google-apps.spreadsheet' and '"
             +:+ DRIVE_FOLDER_ID w +:+ "' in parents"
         else "mimeType='application/vnd.google-apps.spreadsheet'")
        "drive" true true "files(id, name)" "modifiedTime desc")].
Proof.
  pose proof (run_tool_calls (make_context w sd) (CreateSpreadsheet title)) as Hc.
  pose proof (run_tool_calls (make_context w sd) ListSpreadsheets) as Hl.
  cbn [run_tool request_of] in Hc, Hl. rewrite Hc, Hl.
  unfold make_context, file_body. cbn [folder_id].
  destruct (truthy_str (DRIVE_FOLDER_ID w)) eqn:Hf; [rewrite Hf|]; split; reflexivity.
Qed.

Lemma interactive_flow_writes w creds : emits (token_write_ok w) (interactive_flow w creds).
Proof.
  unfold emits, interactive_flow, perform. destruct creds as [c|]; [constructor|].
  destruct (run_local_server w (CREDENTIALS_PATH w)) as [e|c] eqn:Hflow; simpl.
  - by repeat constructor.
  - destruct (write_token w (TOKEN_PATH w) c) as [e|[]]; simpl; by repeat constructor.
Qed.

Ltac writes_step :=
  match goal with
  | |- emits _ (interactive_flow _ _) => apply interactive_flow_writes
  | |- emits _ (bind _ _) => apply emits_bind; [|intros ?]
  | |- emits _ (try_except _ _) => apply emits_try_except; [|intros ?]
  | |- emits _ (ret _) => apply emits_ret
  | |- emits _ (raise _) => apply emits_raise
  | |- emits _ (log _ _) => apply emits_one
  | |- emits _ (perform _ _) => apply emits_one
  | |- emits _ (probe _ _) => apply emits_one
  | |- emits _ (refresh_call _ _) => rewrite refresh_call_raises; constructor
  | |- emits _ (match ?x with _ => _ end) => destruct x
  end.

(** X20: the token file is written only as a side effect of the
    interactive flow: any write resolution attempts goes to [TOKEN_PATH]
    and carries the credential the flow has just returned. *)
Theorem token_written_only_by_flow w p c :
  In (WriteToken p c) (trace (resolve_credentials w)) ->
  p = TOKEN_PATH w /\ run_local_server w (CREDENTIALS_PATH w) = inr c.
Proof.
  intros Hin.
  assert (H : emits (token_write_ok w) (resolve_credentials w)).
  { unfold resolve_credentials, priority1, priority2, priority3, priority4,
      load_token, refresh_token_step.
    repeat writes_step; simpl; done. }
  unfold emits in H. rewrite Forall_forall in H.
  apply list_elem_of_In in Hin. exact (H _ Hin).
Qed.

Lemma token_written_only_by_flow_witness :
  "token.json" = TOKEN_PATH flow_world /\
  run_local_server flow_world (CREDENTIALS_PATH flow_world) = inr other_user.
Proof.
  apply (token_written_only_by_flow flow_world "token.json" other_user).
  vm_compute. repeat (first [left; reflexivity | right]).
Defined.

End LifespanExtras.

(** ** More on the access guard *)

Section GuardExtras.

Import Guard Scenarios.

(** X21: whatever the strings, [validate_api_key] answers true only for a
    provided key that is present, is exactly the configured key, and is not
    empty. *)
Theorem validate_api_key_exact key provided :
  validate_api_key key provided = inr true ->
  provided = Some key /\ key <> "".
Proof.
  intros H. pose proof (validate_api_key_sound key provided H) as ->.
  split; [done|]. intros ->. discriminate H.
Qed.

Lemma validate_api_key_exact_witness :
  Some "s3cret" = Some (API_KEY small_env zero_entropy) /\
  API_KEY small_env zero_entropy <> "".
Proof.
  exact (validate_api_key_exact (API_KEY small_env zero_entropy) (Some "s3cret") eq_refl).
Defined.

Lemma rstrip_padding (ch : ascii) (body : list ascii) :
  Forall (fun c => c <> ch) body -> rstrip ch (body ++ [ch]) = body.
Proof.
  unfold rstrip. induction 1 as [|c body Hc _ IH]; simpl.
  - by rewrite Ascii.eqb_refl.
  - rewrite IH. destruct body as [|c' body']; [|done].
    destruct (Ascii.eqb_spec c ch); [contradiction | done].
Qed.

Lemma sextet_is_ascii (n : N) : N.ltb (N_of_ascii (sextet n)) 128 = true.
Proof.
  unfold sextet.
  destruct (nth_in_or_default (N.to_nat n) urlsafe_alphabet "A"%char) as [Hin | ->];
    [|reflexivity].
  assert (H : forallb (fun c => N.ltb (N_of_ascii c) 128) urlsafe_alphabet = true)
    by reflexivity.
  rewrite forallb_forall in H. exact (H _ Hin).
Qed.

(** Thirty-two bytes encode to forty-three characters and one padding. *)
Lemma encode_32 (bs : list N) :
  length bs = 32 ->
  exists body,
    urlsafe_b64encode bs = body ++ ["="%char] /\
    length body = 43 /\
    Forall (fun c => exists n, c = sextet n) body.
Proof.
  intros Hlen.
  do 32 (destruct bs as [|? bs]; [discriminate Hlen|]).
  destruct bs; [|discriminate Hlen].
  exists (firstn 43 (urlsafe_b64encode
     [n; n0; n1; n2; n3; n4; n5; n6; n7; n8; n9; n10; n11; n12; n13; n14; n15;
      n16; n17; n18; n19; n20; n21; n22; n23; n24; n25; n26; n27; n28; n29; n30])).
  split_and!; [reflexivity | reflexivity |].
  cbn [urlsafe_b64encode firstn]. repeat constructor; eexists; reflexivity.
Qed.

(** X22: when [MCP_API_KEY] is unset or empty, the key in force is
    [token_urlsafe(32)]: forty-three ASCII characters; it is written in
    clear into the first of the two warnings logged at import; and
    checking an ASCII key against it never raises. *)
Theorem generated_key_shape environ entropy p :
  truthy_opt_str (environ !! "MCP_API_KEY") = false ->
  is_ascii p = true ->
  API_KEY environ entropy = token_urlsafe entropy 32 /\
  String.length (API_KEY environ entropy) = 43 /\
  is_ascii (API_KEY environ entropy) = true /\
  fst (init_API_KEY environ entropy) =
    [Log WARNING [Lit "No MCP_API_KEY provided. Generated temporary key: ";
                  Str (API_KEY environ entropy)];
     Log WARNING [Lit "Set MCP_API_KEY environment variable for production use"]] /\
  validate_api_key (API_KEY environ entropy) (Some p) =
    inr (String.eqb p (API_KEY environ entropy)).
Proof.
  intros Hunset Hp.
  assert (Hkey : API_KEY environ entropy = token_urlsafe entropy 32).
  { unfold API_KEY, init_API_KEY.
    destruct (environ !! "MCP_API_KEY") as [k|]; cbn [truthy_opt_str] in Hunset;
      [by rewrite Hunset|done]. }
  destruct (encode_32 (map Byte.to_N (token_bytes entropy 32)))
    as (body & Hbody & Hlen & Hcoded).
  { unfold token_bytes. by rewrite !length_map, length_seq. }
  assert (Hstr : token_urlsafe entropy 32 = string_of_list_ascii body).
  { unfold token_urlsafe. rewrite Hbody, rstrip_padding; [done|].
    eapply Forall_impl; [exact Hcoded|]. intros c [n ->]. apply sextet_not_padding. }
  assert (Hascii : is_ascii (API_KEY environ entropy) = true).
  { rewrite Hkey, Hstr. unfold is_ascii. rewrite list_ascii_of_string_of_list_ascii.
    apply forallb_forall. intros c Hc.
    rewrite Forall_forall in Hcoded. apply list_elem_of_In in Hc.
    destruct (Hcoded _ Hc) as [n ->]. apply sextet_is_ascii. }
  split_and!.
  - exact Hkey.
  - rewrite Hkey, Hstr.
    rewrite <- Hlen. clear. induction body as [|c body IH]; simpl; [done|]. by rewrite IH.
  - exact Hascii.
  - clear - Hunset. unfold API_KEY, init_API_KEY.
    destruct (environ !! "MCP_API_KEY") as [k|]; cbn [truthy_opt_str] in Hunset;
      [rewrite Hunset|]; cbv zeta; cbn [fst snd]; reflexivity.
  - pose proof (API_KEY_nonempty environ entropy) as Hne.
    apply truthy_str_nonempty in Hne.
    unfold validate_api_key, compare_digest. rewrite Hne, Hp, Hascii.
    destruct p; simpl; [|reflexivity].
    destruct (API_KEY environ entropy); [discriminate Hne | reflexivity].
Qed.

Lemma generated_key_shape_witness :
  String.length (API_KEY ∅ zero_entropy) = 43 /\
  validate_api_key (API_KEY ∅ zero_entropy) (Some "guess") =
    inr (String.eqb "guess" (API_KEY ∅ zero_entropy)).
Proof.
  pose proof (generated_key_shape ∅ zero_entropy "guess" eq_refl eq_refl)
    as (_ & Hlen & _ & _ & Hcheck).
  exact (conj Hlen Hcheck).
Defined.

End GuardExtras.
